(** * A shallow embedding of [main.py] (the AI short-story generator)

    The script builds a prompt from a few form fields, sends it to a
    chat-completion service through one of two OpenAI SDK shapes and shows
    the answer.  This development embeds

    - the Python string operations the script relies on ([str.strip],
      [textwrap.dedent], [str(int)]) on sequences of Unicode code points,
    - the prompt construction of [generate_novel] (the [style_guide]),
    - [_get_api_key], [_get_client], [generate_novel] and the submit
      handler, as computations over an explicit world (secrets, environment,
      the module globals, and the trace of observable events),

    and proves the properties of the accompanying specification. *)

From Stdlib Require Import ZArith NArith List Bool Ascii String Lia.
From Stdlib Require Import DecimalString PrimFloat.
From stdpp Require Import gmap strings list.

Local Open Scope N_scope.

(* ===================================================================== *)
(** ** Python strings *)
(* ===================================================================== *)

(** A Python [str] is a sequence of Unicode code points. *)
Abbreviation pystr := (list N).

Module PyStr.

(** Source literals are written here as they are in [main.py]; the file is
    UTF-8, so a literal is decoded from its bytes to code points. *)
Fixpoint utf8_decode (bs : list N) : pystr :=
  match bs with
  | [] => []
  | b0 :: r0 =>
    if b0 <? 128 then b0 :: utf8_decode r0
    else if b0 <? 224 then
      match r0 with
      | b1 :: r1 =>
        N.lor (N.shiftl (N.land b0 31) 6) (N.land b1 63) :: utf8_decode r1
      | _ => []
      end
    else if b0 <? 240 then
      match r0 with
      | b1 :: b2 :: r2 =>
        N.lor (N.shiftl (N.land b0 15) 12)
              (N.lor (N.shiftl (N.land b1 63) 6) (N.land b2 63))
          :: utf8_decode r2
      | _ => []
      end
    else
      match r0 with
      | b1 :: b2 :: b3 :: r3 =>
        N.lor (N.shiftl (N.land b0 7) 18)
              (N.lor (N.shiftl (N.land b1 63) 12)
                     (N.lor (N.shiftl (N.land b2 63) 6) (N.land b3 63)))
          :: utf8_decode r3
      | _ => []
      end
  end.

Fixpoint bytes_of_string (s : string) : list N :=
  match s with
  | EmptyString => []
  | String a s' => N_of_ascii a :: bytes_of_string s'
  end.

Definition lit (s : string) : pystr := utf8_decode (bytes_of_string s).

(** Code points of the characters the script's string operations test. *)
Definition NL : N := 10.
Definition SP : N := 32.
Definition TAB : N := 9.

(** [str.isspace] on one character: CPython's [_PyUnicode_IsWhitespace]. *)
Definition is_space (c : N) : bool :=
  ((9 <=? c) && (c <=? 13))
  || ((28 <=? c) && (c <=? 32))
  || (c =? 133) || (c =? 160) || (c =? 5760)
  || ((8192 <=? c) && (c <=? 8202))
  || (c =? 8232) || (c =? 8233) || (c =? 8239) || (c =? 8287)
  || (c =? 12288).

Fixpoint lstrip (s : pystr) : pystr :=
  match s with
  | [] => []
  | c :: s' => if is_space c then lstrip s' else s
  end.

Definition rstrip (s : pystr) : pystr := rev (lstrip (rev s)).

(** [s.strip()]: leading and trailing whitespace removed. *)
Definition strip (s : pystr) : pystr := rstrip (lstrip s).

(** [s.startswith(p)]. *)
Fixpoint startswith (s p : pystr) : bool :=
  match p, s with
  | [], _ => true
  | _ :: _, [] => false
  | a :: p', b :: s' => (a =? b) && startswith s' p'
  end.

(** [s.split("\n")] and ["\n".join(lines)]. *)
Fixpoint split_nl (s : pystr) : list pystr :=
  match s with
  | [] => [[]]
  | c :: s' =>
    if c =? NL then [] :: split_nl s'
    else match split_nl s' with
         | l :: ls => (c :: l) :: ls
         | [] => [[c]]
         end
  end.

Fixpoint join_nl (ls : list pystr) : pystr :=
  match ls with
  | [] => []
  | [l] => l
  | l :: ls' => l ++ NL :: join_nl ls'
  end.

(** [str(n)] for an [int]: decimal digits with a leading minus sign. *)
Definition str_int (n : Z) : pystr :=
  lit (NilZero.string_of_int (Z.to_int n)).

(** Substring tests: [needle in hay] and the number of positions at which
    [needle] occurs in [hay]. *)
Fixpoint occurrences (needle hay : pystr) : nat :=
  ((if startswith hay needle then 1 else 0) +
   match hay with
   | [] => 0
   | _ :: hay' => occurrences needle hay'
   end)%nat.

Definition contains (needle hay : pystr) : Prop :=
  exists pre post, hay = pre ++ needle ++ post.

End PyStr.

Import PyStr.

(* ===================================================================== *)
(** ** [textwrap.dedent] *)
(* ===================================================================== *)

(** The standard library's [dedent], as CPython implements it with regular
    expressions (up to version 3.13): whitespace-only lines are emptied,
    the margin is the longest run of spaces and tabs that starts every
    other line, and the margin is removed from the lines that start with
    it.  A regular expression in multi-line mode works within the lines
    that [\n] separates, so the steps are given line by line. *)
Module Textwrap.

Definition is_sp_tab (c : N) : bool := (c =? SP) || (c =? TAB).

(** [_whitespace_only_re] (multi-line, a line start, one or more spaces or
    tabs, a line end): a line made of spaces and tabs only, at least one. *)
Definition whitespace_only (l : pystr) : bool :=
  match l with
  | [] => false
  | _ => forallb is_sp_tab l
  end.

(** [_whitespace_only_re.sub('', text)], line by line. *)
Definition blank_line (l : pystr) : pystr :=
  if whitespace_only l then [] else l.

Fixpoint leading_ws (l : pystr) : pystr :=
  match l with
  | [] => []
  | c :: l' => if is_sp_tab c then c :: leading_ws l' else []
  end.

Fixpoint after_ws (l : pystr) : pystr :=
  match l with
  | [] => []
  | c :: l' => if is_sp_tab c then after_ws l' else l
  end.

(** [_leading_whitespace_re.findall(text)]: the pattern is a line start,
    a run of spaces and tabs (the captured group), then one character that
    is neither space, tab nor newline; so the result is the indentation of
    every line that has a character other than a space or a tab. *)
Fixpoint indents (ls : list pystr) : list pystr :=
  match ls with
  | [] => []
  | l :: ls' =>
    match after_ws l with
    | [] => indents ls'
    | _ :: _ => leading_ws l :: indents ls'
    end
  end.

(** The innermost loop: cut [margin] at the first position where it
    differs from [indent]; no change when [zip] ends first. *)
Fixpoint cut_at_mismatch (margin indent : pystr) : pystr :=
  match margin, indent with
  | x :: m', y :: i' => if x =? y then x :: cut_at_mismatch m' i' else []
  | _, _ => margin
  end.

(** One iteration of [for indent in indents]. *)
Definition margin_step (margin : option pystr) (indent : pystr)
  : option pystr :=
  match margin with
  | None => Some indent
  | Some m =>
    if startswith indent m then Some m
    else if startswith m indent then Some indent
    else Some (cut_at_mismatch m indent)
  end.

Definition find_margin (inds : list pystr) : option pystr :=
  fold_left margin_step inds None.

(** [re.sub(r'(?m)^' + margin, '', text)], line by line. *)
Definition remove_margin (m l : pystr) : pystr :=
  if startswith l m then drop (length m) l else l.

Definition dedent (text : pystr) : pystr :=
  let lines := map blank_line (split_nl text) in
  match find_margin (indents lines) with
  | Some (c :: m) => join_nl (map (remove_margin (c :: m)) lines)
  | _ => join_nl lines
  end.

End Textwrap.

Import Textwrap.

(* ===================================================================== *)
(** ** The prompt of [generate_novel] *)
(* ===================================================================== *)

(** The choices the form offers (the [st.selectbox] calls). *)
Definition LANGUAGES : list pystr := [lit "한국어"; lit "English"].

Definition MODELS : list pystr := [lit "gpt-4o-mini"; lit "gpt-4o"].

Definition GENRES : list pystr :=
  [ lit "로맨스"; lit "미스터리"; lit "스릴러"; lit "판타지"; lit "SF";
    lit "호러"; lit "성장소설"; lit "휴먼드라마"; lit "코미디"; lit "사극/역사" ].

(** [style_guide]: the f-string of [generate_novel], dedented and stripped.
    The literal pieces are the text between the replacement fields. *)
Definition style_guide
    (protagonist1 protagonist2 genre premise language : pystr)
    (target_words : Z) : pystr :=
  strip (dedent (
    lit "
        Write a complete short story in " ++ language ++ lit ".
        Requirements:
        - Genre: " ++ genre ++ lit "
        - Main characters: " ++ protagonist1 ++ lit " and " ++ protagonist2 ++ lit "
        - Start with a strong hook in the first 2–3 sentences.
        - Maintain clear scene breaks and a satisfying arc (setup → escalation → climax → resolution).
        - Show, don't tell. Keep dialogue natural.
        - Keep pacing tight and avoid filler.
        - Tone and diction should match the genre.
        - Target length: ~" ++ str_int target_words ++ lit " words (±15%).
        - End with a resonant final line (no meta commentary).

        Backstory / seed premise:
        " ++ strip premise ++ lit "
        ")).

Definition SYSTEM_PROMPT : pystr :=
  lit "You are an award-winning novelist. You craft vivid scenes, believable dialogue, and tight plots.".

(* ===================================================================== *)
(** ** The world the script runs in *)
(* ===================================================================== *)

(** Exceptions.  [st.stop()] raises Streamlit's [StopException], which
    derives from [BaseException]; every other exception met here derives
    from [Exception] and is kept as its class name and its [str(e)]. *)
Inductive pyexn :=
| StopException
| PyException (cls : string) (msg : pystr).

Definition RuntimeError (msg : pystr) : pyexn := PyException "RuntimeError" msg.

(** [isinstance(e, Exception)]. *)
Definition is_Exception (e : pyexn) : bool :=
  match e with
  | StopException => false
  | PyException _ _ => true
  end.

(** [str(e)]. *)
Definition str_exn (e : pyexn) : pystr :=
  match e with
  | StopException => []
  | PyException _ msg => msg
  end.

(** One chat message, and the keyword arguments of a [create] call. *)
Record message := { role : pystr; content : pystr }.

Record chat_params := {
  model : pystr;
  temperature : float;
  max_tokens : Z;
  messages : list message
}.

(** The two call shapes, each with the API key it authenticates with: the
    key given to the [OpenAI] client, or the module attribute
    [openai.api_key] at the time of the call. *)
Inductive endpoint :=
| client_chat_completions_create (client_api_key : option pystr)
| openai_ChatCompletion_create (module_api_key : option pystr).

Record api_call := { via : endpoint; params : chat_params }.

(** What a [create] call gives back: a response, of which the script reads
    [choices[0].message.content], or an exception. *)
Record choice := { message_content : option pystr }.

Record chat_response := { choices : list choice }.

Inductive api_result :=
| ApiReturn (resp : chat_response)
| ApiRaise (cls : string) (msg : pystr).

(** Streamlit calls that show something to the user. *)
Inductive st_call :=
| st_error (body : pystr)
| st_warning (body : pystr)
| st_spinner (text : pystr).

(** The observable events of a run, oldest first. *)
Inductive event :=
| CallGetApiKey (result : option pystr)
| CallCreate (c : api_call)
| CallSt (c : st_call).

Record world := {
  secrets : gmap pystr pystr;        (* st.secrets *)
  environ : gmap pystr pystr;        (* os.environ *)
  _SDK_STYLE : pystr;                (* module global *)
  openai_api_key : option pystr;     (* openai.api_key (legacy SDK) *)
  trace : list event
}.

Definition log (ev : event) (w : world) : world :=
  {| secrets := secrets w; environ := environ w; _SDK_STYLE := _SDK_STYLE w;
     openai_api_key := openai_api_key w; trace := trace w ++ [ev] |}.

Definition set_openai_api_key (k : option pystr) (w : world) : world :=
  {| secrets := secrets w; environ := environ w; _SDK_STYLE := _SDK_STYLE w;
     openai_api_key := k; trace := trace w |}.

(** Computations: state passing over the world, with exceptions. *)
Inductive result (A : Type) :=
| Ok (a : A)
| Raise (e : pyexn).

Arguments Ok {A} a.
Arguments Raise {A} e.

Definition M (A : Type) : Type := world -> result A * world.

Definition ret {A} (a : A) : M A := fun w => (Ok a, w).

Definition bind {A B} (m : M A) (k : A -> M B) : M B :=
  fun w => match m w with
           | (Ok a, w') => k a w'
           | (Raise e, w') => (Raise e, w')
           end.

Definition raise {A} (e : pyexn) : M A := fun w => (Raise e, w).

(** [try: body / except Exception as e: handler(e)]. *)
Definition try_except_Exception {A} (body : M A) (handler : pyexn -> M A)
  : M A :=
  fun w => match body w with
           | (Ok a, w') => (Ok a, w')
           | (Raise e, w') =>
             if is_Exception e then handler e w' else (Raise e, w')
           end.

Declare Scope py_scope.
Delimit Scope py_scope with py.
Notation "x <- m ;; k" := (bind m (fun x => k))
  (at level 90, m at level 60, right associativity) : py_scope.
Notation "m ;;; k" := (bind m (fun _ => k))
  (at level 90, right associativity) : py_scope.
Local Open Scope py_scope.

Definition emit (ev : event) : M unit := fun w => (Ok tt, log ev w).

Definition st (c : st_call) : M unit := emit (CallSt c).

Definition st_stop {A} : M A := raise StopException.

(** Python truth value of an [Optional[str]]: [None] and the empty string
    are false. *)
Definition truthy (o : option pystr) : bool :=
  match o with
  | Some (_ :: _) => true
  | _ => false
  end.

Definition OPENAI_API_KEY : pystr := lit "OPENAI_API_KEY".

(* ===================================================================== *)
(** ** Helpers of the script *)
(* ===================================================================== *)

Definition _get_api_key : M (option pystr) :=
  fun w =>
    let r := match secrets w !! OPENAI_API_KEY with
             | Some v => Some v                       (* st.secrets[...] *)
             | None => environ w !! OPENAI_API_KEY    (* os.getenv(...) *)
             end in
    (Ok r, log (CallGetApiKey r) w).

(** The [OpenAI] client object: it carries the key it was built with. *)
Record OpenAI := { api_key : option pystr }.

Definition _get_client : M (option OpenAI) :=
  api_key <- _get_api_key ;;
  (if negb (truthy api_key) then st_stop else ret tt) ;;;
  fun w =>
    if bool_decide (_SDK_STYLE w = lit "new") then
      (Ok (Some {| api_key := api_key |}), w)
    else
      (Ok None, set_openai_api_key api_key w).

Section Backend.

(** The chat-completion service: what a [create] call answers, given the
    events so far and the call. *)
Variable backend : list event -> api_call -> api_result.

Definition create (ep : endpoint) (p : chat_params) : M chat_response :=
  fun w =>
    let c := {| via := ep; params := p |} in
    match backend (trace w) c with
    | ApiReturn resp => (Ok resp, log (CallCreate c) w)
    | ApiRaise cls msg => (Raise (PyException cls msg), log (CallCreate c) w)
    end.

(** [resp.choices[0].message.content.strip()] and its legacy spelling with
    subscripts: both index the first choice and call [strip] on its
    content, which may be [None]. *)
Definition first_content_stripped (resp : chat_response) : M pystr :=
  match choices resp with
  | [] => raise (PyException "IndexError" (lit "list index out of range"))
  | c :: _ =>
    match message_content c with
    | None =>
      raise (PyException "AttributeError"
               (lit "'NoneType' object has no attribute 'strip'"))
    | Some s => ret (strip s)
    end
  end.

Definition generate_novel
    (protagonist1 protagonist2 genre premise language : pystr)
    (target_words : Z) (temperature : float) (model : pystr) : M pystr :=
  let style_guide :=
    style_guide protagonist1 protagonist2 genre premise language
                target_words in
  client <- _get_client ;;
  fun w =>
    (* New SDK path *)
    if bool_decide (_SDK_STYLE w = lit "new") then
      try_except_Exception
        (resp <- match client with
                 | Some c =>
                   create (client_chat_completions_create (api_key c))
                     {| model := model;
                        temperature := temperature;
                        max_tokens := 4096;
                        messages :=
                          [ {| role := lit "system"; content := SYSTEM_PROMPT |};
                            {| role := lit "user"; content := style_guide |} ] |}
                 | None =>
                   raise (PyException "AttributeError"
                            (lit "'NoneType' object has no attribute 'chat'"))
                 end ;;
         first_content_stripped resp)
        (fun e => raise (RuntimeError (lit "OpenAI API error: " ++ str_exn e)))
        w
    (* Legacy SDK path *)
    else
      try_except_Exception
        (resp <- create (openai_ChatCompletion_create (openai_api_key w))
                   {| model := model;
                      temperature := temperature;
                      max_tokens := 4096;
                      messages :=
                        [ {| role := lit "system"; content := SYSTEM_PROMPT |};
                          {| role := lit "user"; content := style_guide |} ] |} ;;
         first_content_stripped resp)
        (fun e => raise (RuntimeError (lit "OpenAI API error: " ++ str_exn e)))
        w.

(** The values of the form's widgets when the script runs. *)
Record form := {
  cta : bool;
  f_default_lang : pystr;
  f_model : pystr;
  f_target_words : Z;
  f_temperature : float;
  f_protagonist1 : pystr;
  f_protagonist2 : pystr;
  f_genre : pystr;
  f_premise : pystr
}.

Definition is_empty (s : pystr) : bool :=
  match s with [] => true | _ => false end.

(** The [if cta:] block up to the generated story: the credential guard,
    the validation and the call of [generate_novel].  The rest of the
    block shows the story it is given. *)
Definition cta_handler (f : form) : M pystr :=
  api_key <- _get_api_key ;;
  (if negb (truthy api_key) then
     st (st_error (lit "OPENAI_API_KEY가 설정되어 있지 않습니다. 사이드바 안내를 참고해 키를 등록하세요.")) ;;;
     st_stop
   else ret tt) ;;;
  (if is_empty (f_protagonist1 f) || is_empty (f_protagonist2 f)
      || is_empty (f_premise f) then
     st (st_warning (lit "주인공 이름 2개와 스토리 프롬프트를 모두 입력해주세요.")) ;;;
     st_stop
   else ret tt) ;;;
  st (st_spinner (lit "소설을 집필 중입니다…")) ;;;
  try_except_Exception
    (generate_novel (strip (f_protagonist1 f)) (strip (f_protagonist2 f))
       (f_genre f) (f_premise f) (f_default_lang f) (f_target_words f)
       (f_temperature f) (f_model f))
    (fun e => st (st_error (str_exn e)) ;;; st_stop).

End Backend.

(* ===================================================================== *)
(** ** The process: start-up and submissions *)
(* ===================================================================== *)

(** What the interpreter finds when the script imports the SDK. *)
Inductive openai_package := NotInstalled | LegacySDK | NewSDK.

(** [from openai import OpenAI]. *)
Definition import_OpenAI_from_openai (pkg : openai_package) : result unit :=
  match pkg with
  | NewSDK => Ok tt
  | LegacySDK =>
    Raise (PyException "ImportError"
             (lit "cannot import name 'OpenAI' from 'openai'"))
  | NotInstalled =>
    Raise (PyException "ModuleNotFoundError" (lit "No module named 'openai'"))
  end.

(** [import openai]. *)
Definition import_openai (pkg : openai_package) : result unit :=
  match pkg with
  | NotInstalled =>
    Raise (PyException "ModuleNotFoundError" (lit "No module named 'openai'"))
  | _ => Ok tt
  end.

(** The [try]/[except] at the top of the module: it assigns [_SDK_STYLE].
    The legacy SDK initialises [openai.api_key] from the environment. *)
Definition module_init (pkg : openai_package)
    (sec env : gmap pystr pystr) : result world :=
  match import_OpenAI_from_openai pkg with
  | Ok _ =>
    Ok {| secrets := sec; environ := env; _SDK_STYLE := lit "new";
          openai_api_key := None; trace := [] |}
  | Raise e =>
    if is_Exception e then
      match import_openai pkg with
      | Ok _ =>
        Ok {| secrets := sec; environ := env; _SDK_STYLE := lit "legacy";
              openai_api_key := env !! OPENAI_API_KEY; trace := [] |}
      | Raise e' => Raise e'
      end
    else Raise e
  end.

(** One run of the script body for the given widget values, and a session
    of such runs. *)
Definition script_run (backend : list event -> api_call -> api_result)
    (f : form) (w : world) : world :=
  if cta f then snd (cta_handler backend f w) else w.

Fixpoint session (backend : list event -> api_call -> api_result)
    (fs : list form) (w : world) : world :=
  match fs with
  | [] => w
  | f :: fs' => session backend fs' (script_run backend f w)
  end.

(** Projections of a trace. *)
Definition creates (t : list event) : list api_call :=
  omap (fun ev => match ev with CallCreate c => Some c | _ => None end) t.

Definition resolutions (t : list event) : list (option pystr) :=
  omap (fun ev => match ev with CallGetApiKey r => Some r | _ => None end) t.

Definition is_new_shape (ep : endpoint) : bool :=
  match ep with
  | client_chat_completions_create _ => true
  | openai_ChatCompletion_create _ => false
  end.

(** The contents of the [user] messages sent so far. *)
Definition user_prompts (t : list event) : list pystr :=
  c ← creates t;
  m ← messages (params c);
  if bool_decide (role m = lit "user") then [content m] else [].

(** The request as the specification words it: a fixed system instruction
    and a user message holding the prompt, the requested model and
    temperature, and a constant response ceiling. *)
Definition spec_chat_request
    (protagonist1 protagonist2 genre premise language : pystr)
    (target_words : Z) (temperature : float) (model : pystr) : chat_params :=
  {| model := model;
     temperature := temperature;
     max_tokens := 4096;
     messages :=
       [ {| role := lit "system"; content := SYSTEM_PROMPT |};
         {| role := lit "user";
            content := style_guide protagonist1 protagonist2 genre premise
                                   language target_words |} ] |}.

Definition with_style (s : pystr) (w : world) : world :=
  {| secrets := secrets w; environ := environ w; _SDK_STYLE := s;
     openai_api_key := openai_api_key w; trace := trace w |}.

#[global] Arguments lit : simpl never.
#[global] Arguments style_guide : simpl never.
#[global] Arguments strip : simpl never.
#[global] Arguments SYSTEM_PROMPT : simpl never.
#[global] Arguments OPENAI_API_KEY : simpl never.

(* ===================================================================== *)
(** ** Vocabulary of the properties *)
(* ===================================================================== *)

(** The endpoint a world's [_SDK_STYLE] selects, authenticated with [k]. *)
Definition endpoint_for (w : world) (k : pystr) : endpoint :=
  if bool_decide (_SDK_STYLE w = lit "new")
  then client_chat_completions_create (Some k)
  else openai_ChatCompletion_create (Some k).

(** The message the submit handler shows when there is no key. *)
Definition MISSING_KEY_MESSAGE : pystr :=
  lit "OPENAI_API_KEY가 설정되어 있지 않습니다. 사이드바 안내를 참고해 키를 등록하세요.".

(** The key [_get_api_key] would return in a world. *)
Definition current_key (w : world) : option pystr :=
  match fst (_get_api_key w) with
  | Ok r => r
  | Raise _ => None
  end.

(** A [create] event agrees with a style when it went through the call
    shape that style selects. *)
Definition event_fits (style : pystr) (ev : event) : Prop :=
  match ev with
  | CallCreate c => is_new_shape (via c) = bool_decide (style = lit "new")
  | _ => True
  end.

(** [keeps w w']: from [w] to [w'] the credential sources and the module's
    [_SDK_STYLE] are unchanged, and the trace has grown by events that fit
    the style. *)
Definition keeps (w w' : world) : Prop :=
  secrets w' = secrets w /\ environ w' = environ w /\
  _SDK_STYLE w' = _SDK_STYLE w /\
  exists evs, trace w' = trace w ++ evs /\ Forall (event_fits (_SDK_STYLE w)) evs.

(** A computation is stable when every run of it keeps the world. *)
Definition stable {A} (m : M A) : Prop := forall w, keeps w (snd (m w)).

(** A string without a line break. *)
Definition single_line (s : pystr) : bool :=
  forallb (fun c => negb (c =? NL)) s.

(** The first character exists and is not whitespace. *)
Definition starts_nonspace (s : pystr) : bool :=
  match s with
  | [] => false
  | c :: _ => negb (is_space c)
  end.

(** The indentation of the template lines in the source: eight spaces. *)
Definition INDENT : pystr := [SP; SP; SP; SP; SP; SP; SP; SP].

(** A line of the template body, indented by [K] unless it is empty. *)
Definition indent_line (K l : pystr) : pystr :=
  match l with
  | [] => []
  | _ :: _ => K ++ l
  end.

(** A line that is empty or starts with neither a space nor a tab. *)
Definition flush (l : pystr) : bool :=
  match l with
  | [] => true
  | c :: _ => negb (is_sp_tab c)
  end.

(** A line that does not start with a space (and is not empty). *)
Definition starts_off_space (l : pystr) : bool :=
  match l with
  | [] => false
  | c :: _ => negb (c =? SP)
  end.

(** The lines of the template body, without their indentation. *)
Definition first_line (language : pystr) : pystr :=
  lit "Write a complete short story in " ++ language ++ lit ".".

Definition rest_lines (protagonist1 protagonist2 genre : pystr)
    (target_words : Z) : list pystr :=
  [ lit "Requirements:";
    lit "- Genre: " ++ genre;
    lit "- Main characters: " ++ protagonist1 ++ lit " and " ++ protagonist2;
    lit "- Start with a strong hook in the first 2–3 sentences.";
    lit "- Maintain clear scene breaks and a satisfying arc (setup → escalation → climax → resolution).";
    lit "- Show, don't tell. Keep dialogue natural.";
    lit "- Keep pacing tight and avoid filler.";
    lit "- Tone and diction should match the genre.";
    lit "- Target length: ~" ++ str_int target_words ++ lit " words (±15%).";
    lit "- End with a resonant final line (no meta commentary).";
    [];
    lit "Backstory / seed premise:" ].

(** The prompt with its lines after the first indented by [K], ending in
    the trimmed premise [P]. *)
Definition layout (K : pystr)
    (protagonist1 protagonist2 genre language : pystr) (target_words : Z)
    (P : pystr) : pystr :=
  join_nl (first_line language
           :: map (indent_line K)
                  (rest_lines protagonist1 protagonist2 genre target_words)
           ++ [K ++ P]).

(** When [dedent] leaves the lines of the premise as they are: the trimmed
    premise is one line, or none of its later lines is made of spaces and
    tabs only and one of them starts with something else than a space. *)
Definition dedent_keeps (P : pystr) : bool :=
  match tl (split_nl P) with
  | [] => true
  | rest =>
    forallb (fun l => negb (whitespace_only l)) rest
    && existsb starts_off_space rest
  end.

(** The indentation left in the prompt: none for a one-line premise,
    otherwise all of it. *)
Definition kept_indent (P : pystr) : pystr :=
  match tl (split_nl P) with
  | [] => []
  | _ :: _ => INDENT
  end.

Ltac eval_lits :=
  repeat match goal with
         | |- context [lit ?s] =>
           lazymatch s with
           | String _ _ =>
             let v := eval vm_compute in (lit s) in change (lit s) with v
           end
         end.

(** The request of the specification: the arguments of [generate_novel]. *)
Record StoryRequest := {
  sr_protagonist1 : pystr;
  sr_protagonist2 : pystr;
  sr_genre : pystr;
  sr_premise : pystr;
  sr_language : pystr;
  sr_target_words : Z;
  sr_temperature : float;
  sr_model : pystr
}.

(** The Prompt Builder on a request. *)
Definition prompt_of (r : StoryRequest) : pystr :=
  style_guide (sr_protagonist1 r) (sr_protagonist2 r) (sr_genre r)
    (sr_premise r) (sr_language r) (sr_target_words r).

(** A valid request: names and premise not blank, genre and language among
    the form's choices. *)
Definition valid_request (r : StoryRequest) : Prop :=
  strip (sr_protagonist1 r) <> [] /\ strip (sr_protagonist2 r) <> [] /\
  strip (sr_premise r) <> [] /\
  In (sr_genre r) GENRES /\ In (sr_language r) LANGUAGES.

(** The request of the specification's end-to-end scenario. *)
Definition example_request : StoryRequest :=
  {| sr_protagonist1 := lit "지우";
     sr_protagonist2 := lit "민서";
     sr_genre := lit "판타지";
     sr_premise := lit "오래된 가게...";
     sr_language := lit "한국어";
     sr_target_words := 1200;
     sr_temperature := 0x1.ccccccccccccdp-1;
     sr_model := lit "gpt-4o-mini" |}.

(** A request that names its characters in a premise of three lines, the
    second of which is a single space. *)
Definition naming_request : StoryRequest :=
  {| sr_protagonist1 := lit "Ann";
     sr_protagonist2 := lit "Bob";
     sr_genre := lit "SF";
     sr_premise := lit "Ann" ++ [NL; SP; NL] ++ lit "Bob";
     sr_language := lit "English";
     sr_target_words := 1200;
     sr_temperature := 0x1.ccccccccccccdp-1;
     sr_model := lit "gpt-4o-mini" |}.

(** A world with a key in the secrets store and another in the
    environment, and a world with no key at all. *)
Definition keyed_world (style : pystr) : world :=
  {| secrets := {[ OPENAI_API_KEY := lit "sk-secret" ]};
     environ := {[ OPENAI_API_KEY := lit "sk-env" ]};
     _SDK_STYLE := style;
     openai_api_key := None;
     trace := [] |}.

Definition env_only_world : world :=
  {| secrets := ∅;
     environ := {[ OPENAI_API_KEY := lit "sk-env" ]};
     _SDK_STYLE := lit "new";
     openai_api_key := None;
     trace := [] |}.

Definition keyless_world : world :=
  {| secrets := ∅;
     environ := ∅;
     _SDK_STYLE := lit "legacy";
     openai_api_key := None;
     trace := [] |}.

(** A service that answers every call with the same story, and one that
    fails every call. *)
Definition the_end : chat_response :=
  {| choices := [ {| message_content := Some (lit "  THE END. ") |} ] |}.

Definition echo_backend (_ : list event) (_ : api_call) : api_result :=
  ApiReturn the_end.

Definition failing_backend (_ : list event) (_ : api_call) : api_result :=
  ApiRaise "APIConnectionError" (lit "Connection error.").

Definition example_form : form :=
  {| cta := true;
     f_default_lang := lit "한국어";
     f_model := lit "gpt-4o-mini";
     f_target_words := 1200;
     f_temperature := 0x1.ccccccccccccdp-1;
     f_protagonist1 := lit "지우";
     f_protagonist2 := lit "민서";
     f_genre := lit "판타지";
     f_premise := lit "오래된 가게..." |}.

Ltac prove_valid_request :=
  repeat split; try (intros H; vm_compute in H; discriminate);
  vm_compute; auto 20.

(** The arguments of [generate_novel] for a request. *)
Definition generate (backend : list event -> api_call -> api_result)
    (r : StoryRequest) : M pystr :=
  generate_novel backend (sr_protagonist1 r) (sr_protagonist2 r) (sr_genre r)
    (sr_premise r) (sr_language r) (sr_target_words r) (sr_temperature r)
    (sr_model r).

Definition request_params (r : StoryRequest) : chat_params :=
  spec_chat_request (sr_protagonist1 r) (sr_protagonist2 r) (sr_genre r)
    (sr_premise r) (sr_language r) (sr_target_words r) (sr_temperature r)
    (sr_model r).

(* ===================================================================== *)
(** ** The rest of the submit block *)
(* ===================================================================== *)

(** The messages of the validation and of the spinner. *)
Definition VALIDATION_MESSAGE : pystr :=
  lit "주인공 이름 2개와 스토리 프롬프트를 모두 입력해주세요.".

Definition SPINNER_TEXT : pystr := lit "소설을 집필 중입니다…".

(** The validation of the submit handler: none of the three texts is the
    empty string. *)
Definition fields_filled (f : form) : bool :=
  negb (is_empty (f_protagonist1 f) || is_empty (f_protagonist2 f)
        || is_empty (f_premise f)).

(** The request a form leads to: the handler strips the two names and
    passes the other fields on as they are. *)
Definition form_request (f : form) : chat_params :=
  spec_chat_request (strip (f_protagonist1 f)) (strip (f_protagonist2 f))
    (f_genre f) (f_premise f) (f_default_lang f) (f_target_words f)
    (f_temperature f) (f_model f).

(** [ch.encode("utf-8")] for one character, with the bit operations of
    CPython's encoder; [None] stands for [UnicodeEncodeError], which the
    strict encoder raises for a surrogate (a [str] holds no code point
    above U+10FFFF). *)
Definition utf8_encode_char (c : N) : option (list N) :=
  if c <? 128 then Some [c]
  else if c <? 2048 then
    Some [N.lor 192 (N.shiftr c 6); N.lor 128 (N.land c 63)]
  else if c <? 65536 then
    if (55296 <=? c) && (c <=? 57343) then None
    else Some [N.lor 224 (N.shiftr c 12);
               N.lor 128 (N.land (N.shiftr c 6) 63);
               N.lor 128 (N.land c 63)]
  else if c <? 1114112 then
    Some [N.lor 240 (N.shiftr c 18);
          N.lor 128 (N.land (N.shiftr c 12) 63);
          N.lor 128 (N.land (N.shiftr c 6) 63);
          N.lor 128 (N.land c 63)]
  else None.

(** [s.encode("utf-8")]. *)
Fixpoint utf8_encode (s : pystr) : option (list N) :=
  match s with
  | [] => Some []
  | c :: s' =>
    match utf8_encode_char c, utf8_encode s' with
    | Some b, Some bs => Some (b ++ bs)
    | _, _ => None
    end
  end.

(** A character the strict encoder accepts. *)
Definition encodable (c : N) : bool :=
  (c <? 1114112) && negb ((55296 <=? c) && (c <=? 57343)).

(** What the block shows once it has the story. *)
Inductive widget :=
| st_success (body : pystr)
| st_subheader (body : pystr)
| st_download_button (label : pystr) (data : list N) (file_name : pystr)
| st_markdown (body : pystr).

Definition DOWNLOAD_LABEL : pystr := lit "소설 텍스트 다운로드 (.txt)".

(** [f"novel_{protagonist1}_{protagonist2}.txt"], with the names as they
    were typed. *)
Definition download_file_name (f : form) : pystr :=
  lit "novel_" ++ f_protagonist1 f ++ lit "_" ++ f_protagonist2 f
  ++ lit ".txt".

(** The lines after the generation step: the widgets shown, in order, and
    whether the block ran to its end.  [story.encode] is evaluated after
    the success message and the subheader are out; when it raises, nothing
    catches the error and the rest is not shown. *)
Definition show_story (f : form) (story : pystr) : list widget * bool :=
  let shown :=
    [ st_success (lit "완료! 아래에서 결과를 확인하세요.");
      st_subheader (lit "📝 생성된 소설") ] in
  match utf8_encode story with
  | None => (shown, false)
  | Some data =>
    (shown ++ [ st_download_button DOWNLOAD_LABEL data (download_file_name f);
                st_markdown (lit "---");
                st_markdown story ],
     true)
  end.

(** The [create] calls one run of the submit handler makes in a world: one
    when the guard and the validation pass, none otherwise. *)
Definition submission_calls (f : form) (w : world) : list api_call :=
  match current_key w with
  | Some (c :: k) =>
    if fields_filled f
    then [ {| via := endpoint_for w (c :: k); params := form_request f |} ]
    else []
  | _ => []
  end.

(** A world whose secrets store has an empty key while the environment has
    a usable one. *)
Definition empty_secret_world : world :=
  {| secrets := {[ OPENAI_API_KEY := [] ]};
     environ := {[ OPENAI_API_KEY := lit "sk-env" ]};
     _SDK_STYLE := lit "new";
     openai_api_key := None;
     trace := [] |}.

(** A legacy-SDK world whose module attribute holds an old key. *)
Definition stale_key_world : world :=
  {| secrets := {[ OPENAI_API_KEY := lit "sk-secret" ]};
     environ := ∅;
     _SDK_STYLE := lit "legacy";
     openai_api_key := Some (lit "sk-old");
     trace := [] |}.

(** Forms: one without a premise, one whose first name is blanks only. *)
Definition no_premise_form : form :=
  {| cta := true;
     f_default_lang := lit "한국어";
     f_model := lit "gpt-4o-mini";
     f_target_words := 1200;
     f_temperature := 0x1.ccccccccccccdp-1;
     f_protagonist1 := lit "지우";
     f_protagonist2 := lit "민서";
     f_genre := lit "판타지";
     f_premise := [] |}.

Definition blank_name_form : form :=
  {| cta := true;
     f_default_lang := lit "English";
     f_model := lit "gpt-4o";
     f_target_words := 400;
     f_temperature := 0x1.ccccccccccccdp-1;
     f_protagonist1 := [SP; SP];
     f_protagonist2 := lit " Bob ";
     f_genre := lit "SF";
     f_premise := lit "An old shop." |}.

(* ===================================================================== *)
(** ** Credential resolution *)
(* ===================================================================== *)

Lemma _get_api_key_world (w : world) :
  exists r, _get_api_key w = (Ok r, log (CallGetApiKey r) w).
Proof. unfold _get_api_key. eauto. Qed.

(** C3: [_get_api_key] returns the secrets-store value whenever the store
    has [OPENAI_API_KEY], also when the environment has it too; the
    environment's value when only the environment has it; and [None] when
    neither has it. *)
Theorem get_api_key_precedence :
  (forall w v, secrets w !! OPENAI_API_KEY = Some v ->
               fst (_get_api_key w) = Ok (Some v)) /\
  (forall w v, secrets w !! OPENAI_API_KEY = None ->
               environ w !! OPENAI_API_KEY = Some v ->
               fst (_get_api_key w) = Ok (Some v)) /\
  (forall w, secrets w !! OPENAI_API_KEY = None ->
             environ w !! OPENAI_API_KEY = None ->
             fst (_get_api_key w) = Ok None).
Proof.
  repeat split; intros; unfold _get_api_key; cbn.
  - now rewrite H.
  - now rewrite H, H0.
  - now rewrite H, H0.
Qed.

(* ===================================================================== *)
(** ** Facts about [strip] *)
(* ===================================================================== *)

Lemma lstrip_split (s : pystr) :
  exists ws, s = ws ++ lstrip s /\ forallb is_space ws = true.
Proof.
  induction s as [|c s (ws & Hs & Hws)]; [now exists []|].
  cbn [lstrip]. destruct (is_space c) eqn:Hc.
  - exists (c :: ws). split; [cbn; now rewrite <- Hs | cbn; now rewrite Hc].
  - now exists [].
Qed.

Lemma lstrip_starts (s : pystr) :
  lstrip s = [] \/ starts_nonspace (lstrip s) = true.
Proof.
  induction s as [|c s IH]; [now left|].
  cbn [lstrip]. destruct (is_space c) eqn:Hc; [assumption|].
  right. cbn. now rewrite Hc.
Qed.

Lemma lstrip_id (s : pystr) : starts_nonspace s = true -> lstrip s = s.
Proof.
  destruct s as [|c s]; [discriminate|]. cbn.
  intros Hc. apply negb_true_iff in Hc. now rewrite Hc.
Qed.

Lemma lstrip_spaces (ws s : pystr) :
  forallb is_space ws = true -> lstrip (ws ++ s) = lstrip s.
Proof.
  induction ws as [|c ws IH]; [reflexivity|]. cbn.
  intros H. apply andb_true_iff in H as [Hc Hws]. rewrite Hc. auto.
Qed.

Lemma starts_nonspace_app (s t : pystr) :
  starts_nonspace s = true -> starts_nonspace (s ++ t) = true.
Proof. now destruct s. Qed.

Lemma forallb_rev_spaces (ws : pystr) :
  forallb is_space (rev ws) = forallb is_space ws.
Proof.
  induction ws as [|c ws IH]; [reflexivity|].
  cbn. rewrite forallb_app, IH. cbn. rewrite andb_true_r. apply andb_comm.
Qed.

(** Stripping a padded string gives back its core. *)
Lemma strip_padded (pre core post : pystr) :
  forallb is_space pre = true -> forallb is_space post = true ->
  starts_nonspace core = true -> starts_nonspace (rev core) = true ->
  strip (pre ++ core ++ post) = core.
Proof.
  intros Hpre Hpost Hs He. unfold strip, rstrip.
  rewrite (lstrip_spaces pre _ Hpre).
  rewrite (lstrip_id (core ++ post)) by now apply starts_nonspace_app.
  rewrite rev_app_distr.
  rewrite lstrip_spaces by now rewrite forallb_rev_spaces.
  rewrite (lstrip_id _ He). apply rev_involutive.
Qed.

(** A stripped string is empty or has no whitespace at either end. *)
Lemma strip_ends (s : pystr) :
  strip s = [] \/
  (starts_nonspace (strip s) = true /\ starts_nonspace (rev (strip s)) = true).
Proof.
  unfold strip, rstrip.
  destruct (lstrip_starts s) as [H0 | Hs].
  { left. now rewrite H0. }
  set (t := lstrip s) in *.
  destruct (lstrip_starts (rev t)) as [H0 | Hu].
  { left. now rewrite H0. }
  right. rewrite rev_involutive. split; [|assumption].
  destruct (lstrip_split (rev t)) as (ws & Heq & _).
  set (u := lstrip (rev t)) in *.
  assert (Ht : t = rev u ++ rev ws).
  { rewrite <- (rev_involutive t), Heq, rev_app_distr. reflexivity. }
  destruct u as [|c u]; [discriminate|].
  assert (Hne : rev (c :: u) <> []).
  { intros H. apply (f_equal (@length N)) in H. rewrite length_rev in H. discriminate. }
  destruct (rev (c :: u)) as [|d v]; [congruence|].
  rewrite Ht in Hs. exact Hs.
Qed.

(** [strip] removes whitespace only, and only at the two ends. *)
Lemma strip_split (s : pystr) :
  exists pre post,
    s = pre ++ strip s ++ post /\
    forallb is_space pre = true /\ forallb is_space post = true.
Proof.
  destruct (lstrip_split s) as (pre & Hs & Hpre).
  destruct (lstrip_split (rev (lstrip s))) as (ws & Hr & Hws).
  exists pre, (rev ws). split; [|split; [exact Hpre|]].
  - unfold strip, rstrip. rewrite <- rev_app_distr, <- Hr, rev_involutive.
    exact Hs.
  - now rewrite forallb_rev_spaces.
Qed.

Section Generation.

Variable backend : list event -> api_call -> api_result.

(** The arguments of one [generate_novel] call. *)
Variables protagonist1 protagonist2 genre premise language : pystr.
Variable target_words : Z.
Variable temp : float.
Variable model_id : pystr.

Local Abbreviation run :=
  (generate_novel backend protagonist1 protagonist2 genre premise
     language target_words temp model_id).

Local Abbreviation request :=
  (spec_chat_request protagonist1 protagonist2 genre premise
     language target_words temp model_id).

(** With a usable key, [generate_novel] is one [create] call followed by
    the handling of its answer. *)
Lemma generate_novel_unfold (w : world) (k : pystr) :
  fst (_get_api_key w) = Ok (Some k) -> k <> [] ->
  let c := {| via := endpoint_for w k; params := request |} in
  let w1 := log (CallGetApiKey (Some k)) w in
  let w1' := if bool_decide (_SDK_STYLE w = lit "new") then w1
             else set_openai_api_key (Some k) w1 in
  run w =
  match backend (trace w1) c with
  | ApiReturn resp =>
    match first_content_stripped resp (log (CallCreate c) w1') with
    | (Ok s, w2) => (Ok s, w2)
    | (Raise e, w2) =>
      (Raise (RuntimeError (lit "OpenAI API error: " ++ str_exn e)), w2)
    end
  | ApiRaise cls msg =>
    (Raise (RuntimeError (lit "OpenAI API error: " ++ msg)),
     log (CallCreate c) w1')
  end.
Proof.
  intros Hk Hne. cbn zeta.
  unfold _get_api_key in Hk. cbn in Hk. injection Hk as Hk.
  unfold generate_novel, _get_client, bind, _get_api_key. rewrite Hk.
  destruct k as [|c0 k']; [congruence|]. cbn [truthy negb ret].
  unfold endpoint_for, spec_chat_request.
  change (_SDK_STYLE (log ?e w)) with (_SDK_STYLE w).
  destruct (bool_decide (_SDK_STYLE w = lit "new")) eqn:Hs.
  - change (_SDK_STYLE (log ?e w)) with (_SDK_STYLE w). rewrite Hs.
    unfold try_except_Exception, bind, create. cbn [api_key].
    change (trace (log ?e w)) with (trace w ++ [e]).
    destruct (backend _ _) as [resp|cls msg].
    + unfold first_content_stripped.
      destruct (choices resp) as [|ch chs]; [reflexivity|].
      destruct (message_content ch); reflexivity.
    + reflexivity.
  - change (_SDK_STYLE (set_openai_api_key ?k (log ?e w))) with (_SDK_STYLE w).
    rewrite Hs.
    unfold try_except_Exception, bind, create.
    change (openai_api_key (set_openai_api_key ?k ?w')) with k.
    change (trace (set_openai_api_key ?k (log ?e w))) with (trace w ++ [e]).
    change (trace (log ?e w)) with (trace w ++ [e]).
    destruct (backend _ _) as [resp|cls msg].
    + unfold first_content_stripped.
      destruct (choices resp) as [|ch chs]; [reflexivity|].
      destruct (message_content ch); reflexivity.
    + reflexivity.
Qed.

Lemma creates_app (t1 t2 : list event) :
  creates (t1 ++ t2) = creates t1 ++ creates t2.
Proof. apply omap_app. Qed.

Lemma resolutions_app (t1 t2 : list event) :
  resolutions (t1 ++ t2) = resolutions t1 ++ resolutions t2.
Proof. apply omap_app. Qed.

Lemma first_content_stripped_world (resp : chat_response) (w : world) :
  snd (first_content_stripped resp w) = w.
Proof.
  unfold first_content_stripped.
  destruct (choices resp) as [|ch chs]; [reflexivity|].
  destruct (message_content ch); reflexivity.
Qed.

(** With a usable key the run leaves exactly two events: the key lookup of
    [_get_client] and one [create] call carrying the request. *)
Lemma generate_novel_trace (w : world) (k : pystr) :
  fst (_get_api_key w) = Ok (Some k) -> k <> [] ->
  trace (snd (run w)) =
  trace w ++ [CallGetApiKey (Some k);
              CallCreate {| via := endpoint_for w k; params := request |}].
Proof.
  intros Hk Hne. rewrite (generate_novel_unfold w k Hk Hne). cbn zeta.
  set (c := {| via := endpoint_for w k; params := request |}).
  set (w1 := log (CallGetApiKey (Some k)) w).
  set (w1' := if bool_decide (_SDK_STYLE w = lit "new") then w1
              else set_openai_api_key (Some k) w1).
  assert (Ht : trace (log (CallCreate c) w1') =
               trace w ++ [CallGetApiKey (Some k); CallCreate c]).
  { unfold w1', w1. destruct (bool_decide _); cbn; now rewrite <- app_assoc. }
  destruct (backend _ _) as [resp|cls msg]; [|exact Ht].
  pose proof (first_content_stripped_world resp (log (CallCreate c) w1')) as Hw.
  destruct (first_content_stripped resp _) as [[s|e] w2]; cbn in Hw |- *;
    now rewrite Hw.
Qed.

(** C2: when the chat-completion call raises an exception, whatever its
    class, [generate_novel] raises a [RuntimeError] whose message is
    [OpenAI API error: ] followed by the original text, and it has made
    exactly one [create] call: there is no retry. *)
Theorem generation_error_wrapped_once
    (w : world) (k : pystr) (cls : string) (msg : pystr) :
  fst (_get_api_key w) = Ok (Some k) -> k <> [] ->
  (forall h ep, backend h {| via := ep; params := request |}
                = ApiRaise cls msg) ->
  fst (run w) = Raise (RuntimeError (lit "OpenAI API error: " ++ msg)) /\
  contains msg (str_exn (RuntimeError (lit "OpenAI API error: " ++ msg))) /\
  creates (trace (snd (run w))) =
  creates (trace w) ++ [{| via := endpoint_for w k; params := request |}].
Proof.
  intros Hk Hne Hb. split; [|split].
  - rewrite (generate_novel_unfold w k Hk Hne). cbn zeta.
    now rewrite Hb.
  - exists (lit "OpenAI API error: "), []. cbn. now rewrite app_nil_r.
  - rewrite (generate_novel_trace w k Hk Hne), creates_app. reflexivity.
Qed.

(** A malformed answer (no choice, or a choice without content) fails
    inside the same [try] and is wrapped in the same way. *)
Lemma malformed_response_wrapped (w : world) (k : pystr) (resp : chat_response) :
  fst (_get_api_key w) = Ok (Some k) -> k <> [] ->
  (forall h ep, backend h {| via := ep; params := request |}
                = ApiReturn resp) ->
  (choices resp = [] \/
   exists chs, choices resp = {| message_content := None |} :: chs) ->
  exists msg,
    fst (run w) = Raise (RuntimeError (lit "OpenAI API error: " ++ msg)).
Proof.
  intros Hk Hne Hb Hm.
  rewrite (generate_novel_unfold w k Hk Hne). cbn zeta. rewrite Hb.
  unfold first_content_stripped.
  destruct Hm as [-> | [chs ->]]; cbn; eauto.
Qed.

(** C5: when the call succeeds and the first choice of the answer has the
    content [c], [generate_novel] returns [c.strip()], the content with
    the surrounding whitespace trimmed: the content is the returned text
    between two runs of whitespace characters, and the returned text is
    empty or has no whitespace character at either end. *)
Theorem generation_returns_stripped_content
    (w : world) (k : pystr) (resp : chat_response)
    (ch : choice) (chs : list choice) (c : pystr) :
  fst (_get_api_key w) = Ok (Some k) -> k <> [] ->
  (forall h ep, backend h {| via := ep; params := request |}
                = ApiReturn resp) ->
  choices resp = ch :: chs -> message_content ch = Some c ->
  exists story pre post,
    fst (run w) = Ok story /\ story = strip c /\
    c = pre ++ story ++ post /\
    forallb is_space pre = true /\ forallb is_space post = true /\
    (story = [] \/
     (starts_nonspace story = true /\ starts_nonspace (rev story) = true)).
Proof.
  intros Hk Hne Hb Hch Hc.
  destruct (strip_split c) as (pre & post & Hsplit & Hpre & Hpost).
  exists (strip c), pre, post.
  split; [|split; [reflexivity|split; [exact Hsplit|split; [exact Hpre|
          split; [exact Hpost | apply strip_ends]]]]].
  rewrite (generate_novel_unfold w k Hk Hne). cbn zeta. rewrite Hb.
  unfold first_content_stripped. now rewrite Hch, Hc.
Qed.

(** C6: the one request [generate_novel] sends has exactly two messages,
    the fixed system instruction and then the user message holding the
    prompt, with the requested model and temperature and with
    [max_tokens = 4096] whatever [target_words] is. *)
Theorem outbound_request_shape (w : world) (k : pystr) :
  fst (_get_api_key w) = Ok (Some k) -> k <> [] ->
  creates (trace (snd (run w))) =
  creates (trace w) ++
  [{| via := endpoint_for w k;
      params :=
        {| model := model_id;
           temperature := temp;
           max_tokens := 4096;
           messages :=
             [ {| role := lit "system"; content := SYSTEM_PROMPT |};
               {| role := lit "user";
                  content := style_guide protagonist1 protagonist2 genre
                               premise language target_words |} ] |} |}].
Proof.
  intros Hk Hne.
  rewrite (generate_novel_trace w k Hk Hne), creates_app. reflexivity.
Qed.

(** Without a key, [_get_client] stops the run before anything is sent. *)
Lemma generate_novel_no_key (w : world) (r : option pystr) :
  fst (_get_api_key w) = Ok r -> truthy r = false ->
  run w = (Raise StopException, log (CallGetApiKey r) w).
Proof.
  intros Hk Ht. unfold _get_api_key in Hk. cbn in Hk. injection Hk as Hk.
  unfold generate_novel, _get_client, bind, _get_api_key.
  rewrite Hk, Ht. reflexivity.
Qed.

Lemma cta_handler_no_key (f : form) (w : world) (r : option pystr) :
  fst (_get_api_key w) = Ok r -> truthy r = false ->
  cta_handler backend f w =
  (Raise StopException,
   log (CallSt (st_error MISSING_KEY_MESSAGE)) (log (CallGetApiKey r) w)).
Proof.
  intros Hk Ht. unfold _get_api_key in Hk. cbn in Hk. injection Hk as Hk.
  unfold cta_handler, bind, _get_api_key.
  rewrite Hk, Ht. cbn [negb]. unfold st, emit, st_stop, raise.
  unfold MISSING_KEY_MESSAGE. reflexivity.
Qed.

(** C4: when neither the secrets store nor the environment has a key, both
    ways into the generation path halt with [st.stop()] before any
    [create] call: [generate_novel] at the guard of [_get_client], and the
    submit handler at its own guard, after showing the configuration
    message with [st.error]. *)
Theorem missing_credential_halts_before_call (f : form) (w : world) :
  secrets w !! OPENAI_API_KEY = None ->
  environ w !! OPENAI_API_KEY = None ->
  (fst (run w) = Raise StopException /\
   creates (trace (snd (run w))) = creates (trace w)) /\
  (fst (cta_handler backend f w) = Raise StopException /\
   trace (snd (cta_handler backend f w)) =
     trace w ++ [CallGetApiKey None;
                 CallSt (st_error MISSING_KEY_MESSAGE)] /\
   creates (trace (snd (cta_handler backend f w))) = creates (trace w)).
Proof.
  intros Hs He.
  assert (Hk : fst (_get_api_key w) = Ok None).
  { unfold _get_api_key. cbn. now rewrite Hs, He. }
  rewrite (generate_novel_no_key w None Hk eq_refl).
  rewrite (cta_handler_no_key f w None Hk eq_refl).
  cbn. rewrite <- !app_assoc, !creates_app. cbn.
  rewrite !app_nil_r. auto.
Qed.

End Generation.

(* ===================================================================== *)
(** ** What a run may change *)
(* ===================================================================== *)

Lemma keeps_refl (w : world) : keeps w w.
Proof.
  repeat split; exists []; split; [now rewrite app_nil_r | constructor].
Qed.

Lemma keeps_trans (w1 w2 w3 : world) :
  keeps w1 w2 -> keeps w2 w3 -> keeps w1 w3.
Proof.
  intros (Hs1 & He1 & Hy1 & evs1 & Ht1 & Hf1) (Hs2 & He2 & Hy2 & evs2 & Ht2 & Hf2).
  repeat split; try congruence.
  exists (evs1 ++ evs2). split.
  - now rewrite Ht2, Ht1, app_assoc.
  - apply Forall_app. split; [assumption|]. now rewrite <- Hy1.
Qed.

Lemma keeps_log (w : world) (ev : event) :
  event_fits (_SDK_STYLE w) ev -> keeps w (log ev w).
Proof.
  intros Hev. repeat split. exists [ev]. split; [reflexivity|].
  constructor; [assumption | constructor].
Qed.

Lemma keeps_set_openai_api_key (w : world) (k : option pystr) :
  keeps w (set_openai_api_key k w).
Proof.
  repeat split. exists []. split; [cbn; now rewrite app_nil_r | constructor].
Qed.

Lemma stable_ret {A} (a : A) : stable (ret a).
Proof. intros w. apply keeps_refl. Qed.

Lemma stable_raise {A} (e : pyexn) : stable (@raise A e).
Proof. intros w. apply keeps_refl. Qed.

Lemma keeps_bind_at {A B} (m : M A) (k : A -> M B) (w : world) :
  keeps w (snd (m w)) -> (forall a, stable (k a)) ->
  keeps w (snd (bind m k w)).
Proof.
  intros Hm Hk. unfold bind.
  destruct (m w) as [[a|e] w1]; cbn in Hm |- *; [|assumption].
  eapply keeps_trans; [eassumption | apply Hk].
Qed.

Lemma keeps_try_at {A} (body : M A) (handler : pyexn -> M A) (w : world) :
  keeps w (snd (body w)) -> (forall e, stable (handler e)) ->
  keeps w (snd (try_except_Exception body handler w)).
Proof.
  intros Hb Hh. unfold try_except_Exception.
  destruct (body w) as [[a|e] w1]; cbn in Hb |- *; [assumption|].
  destruct (is_Exception e); [|assumption].
  eapply keeps_trans; [eassumption | apply Hh].
Qed.

Lemma stable_bind {A B} (m : M A) (k : A -> M B) :
  stable m -> (forall a, stable (k a)) -> stable (bind m k).
Proof. intros Hm Hk w. apply keeps_bind_at; [apply Hm | assumption]. Qed.

Lemma stable_try {A} (body : M A) (handler : pyexn -> M A) :
  stable body -> (forall e, stable (handler e)) ->
  stable (try_except_Exception body handler).
Proof. intros Hb Hh w. apply keeps_try_at; [apply Hb | assumption]. Qed.

Lemma stable_if {A} (b : bool) (m1 m2 : M A) :
  stable m1 -> stable m2 -> stable (if b then m1 else m2).
Proof. now destruct b. Qed.

Lemma stable_st (c : st_call) : stable (st c).
Proof. intros w. apply keeps_log. exact I. Qed.

Lemma stable_get_api_key : stable _get_api_key.
Proof. intros w. apply keeps_log. exact I. Qed.

Lemma stable_first_content (resp : chat_response) :
  stable (first_content_stripped resp).
Proof. intros w. rewrite first_content_stripped_world. apply keeps_refl. Qed.

Lemma stable_st_stop {A} : stable (@st_stop A).
Proof. apply stable_raise. Qed.

Create HintDb stable.
#[local] Hint Resolve stable_ret stable_raise stable_st stable_st_stop
  stable_get_api_key stable_first_content : stable.

Section Process.

Variable backend : list event -> api_call -> api_result.

(** A [create] call keeps the world when it goes through the shape the
    world's style selects. *)
Lemma keeps_create (ep : endpoint) (p : chat_params) (w : world) :
  is_new_shape ep = bool_decide (_SDK_STYLE w = lit "new") ->
  keeps w (snd (create backend ep p w)).
Proof.
  intros Hep. unfold create.
  destruct (backend _ _); apply keeps_log; exact Hep.
Qed.

Lemma stable_get_client : stable _get_client.
Proof.
  unfold _get_client.
  apply stable_bind; [auto with stable|]. intros r.
  apply stable_bind.
  - apply stable_if; [apply stable_raise | apply stable_ret].
  - intros _ w. destruct (bool_decide _); cbn.
    + apply keeps_refl.
    + apply keeps_set_openai_api_key.
Qed.

Lemma stable_generate_novel
    (protagonist1 protagonist2 genre premise language : pystr)
    (target_words : Z) (temp : float) (model_id : pystr) :
  stable (generate_novel backend protagonist1 protagonist2 genre premise
            language target_words temp model_id).
Proof.
  unfold generate_novel.
  apply stable_bind; [apply stable_get_client|]. intros client w.
  destruct (bool_decide (_SDK_STYLE w = lit "new")) eqn:Hs.
  - apply keeps_try_at; [|auto with stable].
    apply keeps_bind_at; [|auto with stable].
    destruct client as [c|]; [|apply keeps_refl].
    apply keeps_create. now rewrite Hs.
  - apply keeps_try_at; [|auto with stable].
    apply keeps_bind_at; [|auto with stable].
    apply keeps_create. now rewrite Hs.
Qed.

Lemma stable_cta_handler (f : form) : stable (cta_handler backend f).
Proof.
  unfold cta_handler.
  apply stable_bind; [auto with stable|]. intros r.
  apply stable_bind.
  { apply stable_if; [|auto with stable].
    apply stable_bind; auto with stable. }
  intros _. apply stable_bind.
  { apply stable_if; [|auto with stable].
    apply stable_bind; auto with stable. }
  intros _. apply stable_bind; [auto with stable|]. intros _.
  apply stable_try; [apply stable_generate_novel|].
  intros e. apply stable_bind; auto with stable.
Qed.

Lemma keeps_script_run (f : form) (w : world) :
  keeps w (script_run backend f w).
Proof.
  unfold script_run. destruct (cta f); [apply stable_cta_handler | apply keeps_refl].
Qed.

Lemma keeps_session (fs : list form) (w : world) :
  keeps w (session backend fs w).
Proof.
  revert w. induction fs as [|f fs IH]; intros w; cbn [session].
  - apply keeps_refl.
  - eapply keeps_trans; [apply keeps_script_run | apply IH].
Qed.

Lemma creates_fit (style : pystr) (evs : list event) :
  Forall (event_fits style) evs ->
  Forall (fun c => is_new_shape (via c) = bool_decide (style = lit "new"))
         (creates evs).
Proof.
  induction 1 as [|ev evs Hev _ IH]; [constructor|].
  destruct ev; cbn; [assumption | constructor; assumption | assumption].
Qed.

(** C8: the call shape is fixed when the module is loaded, from what can be
    imported ([new] exactly when [from openai import OpenAI] succeeds), and
    no run of the script changes it: after any session [_SDK_STYLE] has its
    initial value and every [create] call of the session went through the
    shape that value selects. *)
Theorem sdk_style_selected_once
    (pkg : openai_package) (sec env : gmap pystr pystr)
    (w0 : world) (fs : list form) :
  module_init pkg sec env = Ok w0 ->
  _SDK_STYLE w0 = match pkg with NewSDK => lit "new" | _ => lit "legacy" end /\
  _SDK_STYLE (session backend fs w0) = _SDK_STYLE w0 /\
  Forall (fun c => is_new_shape (via c)
                   = bool_decide (_SDK_STYLE w0 = lit "new"))
         (creates (trace (session backend fs w0))).
Proof.
  intros Hinit.
  assert (Ht0 : trace w0 = []).
  { destruct pkg; cbn in Hinit; inversion Hinit; reflexivity. }
  split; [|split].
  - destruct pkg; cbn in Hinit; inversion Hinit; reflexivity.
  - apply keeps_session.
  - destruct (keeps_session fs w0) as (_ & _ & _ & evs & Ht & Hf).
    rewrite Ht, Ht0. cbn [app]. now apply creates_fit.
Qed.

(** Loading the module again with the same SDK installed selects the same
    style, whatever the credential sources hold then. *)
Lemma module_init_style_stable
    (pkg : openai_package) (sec env sec' env' : gmap pystr pystr)
    (w w' : world) :
  module_init pkg sec env = Ok w -> module_init pkg sec' env' = Ok w' ->
  _SDK_STYLE w = _SDK_STYLE w'.
Proof.
  destruct pkg; cbn; intros H H'; inversion H; inversion H'; reflexivity.
Qed.

Lemma first_content_stripped_value (resp : chat_response) (w1 w2 : world) :
  fst (first_content_stripped resp w1) = fst (first_content_stripped resp w2).
Proof.
  unfold first_content_stripped.
  destruct (choices resp) as [|ch chs]; [reflexivity|].
  destruct (message_content ch); reflexivity.
Qed.

(** C10: the two branches of [generate_novel] cannot be told apart by the
    result: in the same world, with [_SDK_STYLE] set to [new] or to any
    other value, and a service whose answer depends on the request only,
    both give the same return value or exception and send requests with
    the same parameters. *)
Theorem sdk_branches_equivalent
    (protagonist1 protagonist2 genre premise language : pystr)
    (target_words : Z) (temp : float) (model_id : pystr)
    (w : world) (legacy_style : pystr) :
  legacy_style <> lit "new" ->
  (forall h h' c c', params c = params c' -> backend h c = backend h' c') ->
  let run := generate_novel backend protagonist1 protagonist2 genre premise
               language target_words temp model_id in
  let w_new := with_style (lit "new") w in
  let w_legacy := with_style legacy_style w in
  (forall k, endpoint_for w_new k = client_chat_completions_create (Some k)) /\
  (forall k, endpoint_for w_legacy k = openai_ChatCompletion_create (Some k)) /\
  fst (run w_new) = fst (run w_legacy) /\
  map params (creates (trace (snd (run w_new)))) =
  map params (creates (trace (snd (run w_legacy)))).
Proof.
  intros Hleg Hb run w_new w_legacy.
  split; [intros k0; unfold endpoint_for, w_new; cbn [_SDK_STYLE with_style];
          now rewrite bool_decide_eq_true_2|].
  split; [intros k0; unfold endpoint_for, w_legacy; cbn [_SDK_STYLE with_style];
          now rewrite bool_decide_eq_false_2|].
  destruct (_get_api_key_world w) as [r Hr].
  assert (Hn : fst (_get_api_key w_new) = Ok r) by (unfold _get_api_key in *; cbn in *; congruence).
  assert (Hl : fst (_get_api_key w_legacy) = Ok r) by (unfold _get_api_key in *; cbn in *; congruence).
  destruct (truthy r) eqn:Ht.
  - destruct r as [[|c0 k]|]; try discriminate.
    assert (Hne : c0 :: k <> []) by discriminate.
    split.
    + unfold run.
      rewrite (generate_novel_unfold backend _ _ _ _ _ _ _ _ w_new _ Hn Hne).
      rewrite (generate_novel_unfold backend _ _ _ _ _ _ _ _ w_legacy _ Hl Hne).
      cbn zeta.
      match goal with
      | |- context [backend ?h1 ?c1] =>
        match goal with
        | |- _ = fst (match backend ?h2 ?c2 with _ => _ end) =>
          rewrite (Hb h1 h2 c1 c2 eq_refl)
        end
      end.
      destruct (backend _ _) as [resp|cls msg]; [|reflexivity].
      match goal with
      | |- fst (match first_content_stripped resp ?a with _ => _ end) =
           fst (match first_content_stripped resp ?b with _ => _ end) =>
        pose proof (first_content_stripped_value resp a b) as Hv;
        destruct (first_content_stripped resp a) as [[s1|e1] w1];
        destruct (first_content_stripped resp b) as [[s2|e2] w2];
        cbn in Hv |- *; congruence
      end.
    + unfold run.
      rewrite (generate_novel_trace backend _ _ _ _ _ _ _ _ w_new _ Hn Hne).
      rewrite (generate_novel_trace backend _ _ _ _ _ _ _ _ w_legacy _ Hl Hne).
      rewrite !creates_app, !map_app. reflexivity.
  - unfold run.
    rewrite (generate_novel_no_key backend _ _ _ _ _ _ _ _ w_new r Hn Ht).
    rewrite (generate_novel_no_key backend _ _ _ _ _ _ _ _ w_legacy r Hl Ht).
    split; reflexivity.
Qed.

Lemma current_key_eq (w : world) (r : option pystr) :
  fst (_get_api_key w) = Ok r -> current_key w = r.
Proof. unfold current_key. now intros ->. Qed.

(** The key lookups of one run of the submit handler. *)
Lemma cta_handler_resolutions (f : form) (w : world) :
  resolutions (trace (snd (cta_handler backend f w))) =
  resolutions (trace w) ++
  (if truthy (current_key w)
      && negb (is_empty (f_protagonist1 f) || is_empty (f_protagonist2 f)
               || is_empty (f_premise f))
   then [current_key w; current_key w]
   else [current_key w]).
Proof.
  destruct (_get_api_key_world w) as [r Hr].
  assert (Hk : fst (_get_api_key w) = Ok r) by now rewrite Hr.
  rewrite (current_key_eq w r Hk).
  destruct (truthy r) eqn:Ht; cbn [andb].
  2:{ rewrite (cta_handler_no_key backend f w r Hk Ht). cbn.
      rewrite <- app_assoc, resolutions_app. reflexivity. }
  unfold cta_handler, bind. rewrite Hr, Ht. cbn [negb ret].
  destruct (is_empty (f_protagonist1 f) || is_empty (f_protagonist2 f)
            || is_empty (f_premise f)) eqn:He; cbn [negb].
  { unfold st, emit, st_stop, raise. cbn.
    rewrite <- app_assoc, resolutions_app. reflexivity. }
  unfold st at 1. unfold emit.
  destruct r as [[|c0 k]|]; try discriminate.
  unfold ret. cbv beta iota.
  match goal with
  | |- context [try_except_Exception _ _ ?w0] => set (w2 := w0)
  end.
  assert (Hk2 : fst (_get_api_key w2) = Ok (Some (c0 :: k))).
  { unfold _get_api_key in *. cbn in *. exact Hk. }
  assert (Hne : c0 :: k <> []) by discriminate.
  pose proof (generate_novel_trace backend (strip (f_protagonist1 f))
                (strip (f_protagonist2 f)) (f_genre f) (f_premise f)
                (f_default_lang f) (f_target_words f) (f_temperature f)
                (f_model f) w2 _ Hk2 Hne) as Hg.
  unfold try_except_Exception.
  destruct (generate_novel _ _ _ _ _ _ _ _ _ w2) as [[s|e] w3];
    cbn [snd] in Hg |- *.
  - rewrite Hg. unfold w2. cbn [trace log].
    rewrite <- !app_assoc, !resolutions_app. reflexivity.
  - destruct (is_Exception e).
    + unfold bind, st, emit, st_stop, raise. cbn [snd trace log].
      rewrite Hg. unfold w2. cbn [trace log].
      rewrite <- !app_assoc, !resolutions_app. reflexivity.
    + cbn [snd]. rewrite Hg. unfold w2. cbn [trace log].
      rewrite <- !app_assoc, !resolutions_app. reflexivity.
Qed.

(** C7, as the script has it: the key is not resolved once and kept.
    Every submission resolves it anew from the secrets store and the
    environment: twice when the guard and the validation pass (in the
    handler, then in [_get_client]), once otherwise.  The script never
    writes to the secrets store or to the environment. *)
Theorem credential_resolved_on_each_submission (f : form) (w : world) :
  let w' := snd (cta_handler backend f w) in
  secrets w' = secrets w /\ environ w' = environ w /\
  resolutions (trace w') =
  resolutions (trace w) ++
  (if truthy (current_key w)
      && negb (is_empty (f_protagonist1 f) || is_empty (f_protagonist2 f)
               || is_empty (f_premise f))
   then [current_key w; current_key w]
   else [current_key w]).
Proof.
  cbn zeta. destruct (stable_cta_handler f w) as (Hs & He & _).
  split; [exact Hs|]. split; [exact He|]. apply cta_handler_resolutions.
Qed.

(** The credential sources are the same after any session. *)
Lemma session_credential_sources (fs : list form) (w : world) :
  secrets (session backend fs w) = secrets w /\
  environ (session backend fs w) = environ w.
Proof. destruct (keeps_session fs w) as (Hs & He & _). auto. Qed.

End Process.

(* ===================================================================== *)
(** ** The prompt is a function of the request *)
(* ===================================================================== *)

Lemma user_prompts_app (t1 t2 : list event) :
  user_prompts (t1 ++ t2) = user_prompts t1 ++ user_prompts t2.
Proof. unfold user_prompts. rewrite creates_app. apply bind_app. Qed.

Lemma system_is_not_user : lit "system" <> lit "user".
Proof. intros H. vm_compute in H. discriminate. Qed.

Lemma user_prompts_of_request (ep : endpoint)
    (protagonist1 protagonist2 genre premise language : pystr)
    (target_words : Z) (temp : float) (model_id : pystr) (r : option pystr) :
  user_prompts
    [CallGetApiKey r;
     CallCreate {| via := ep;
                   params := spec_chat_request protagonist1 protagonist2
                               genre premise language target_words temp
                               model_id |}] =
  [style_guide protagonist1 protagonist2 genre premise language target_words].
Proof.
  unfold user_prompts, spec_chat_request. cbn.
  rewrite (bool_decide_eq_false_2 _ system_is_not_user).
  rewrite (bool_decide_eq_true_2 _ eq_refl). reflexivity.
Qed.

(** C9: the prompt is determined by the request.  Equal fields give equal
    prompts, code point for code point; and the user message that
    [generate_novel] sends is that prompt in every world, against every
    service, under either SDK style, whatever the model and the
    temperature. *)
Theorem prompt_deterministic
    (protagonist1 protagonist2 genre premise language : pystr)
    (target_words : Z)
    (protagonist1' protagonist2' genre' premise' language' : pystr)
    (target_words' : Z) :
  protagonist1 = protagonist1' -> protagonist2 = protagonist2' ->
  genre = genre' -> premise = premise' -> language = language' ->
  target_words = target_words' ->
  style_guide protagonist1 protagonist2 genre premise language target_words
  = style_guide protagonist1' protagonist2' genre' premise' language'
      target_words' /\
  forall (b b' : list event -> api_call -> api_result) (w w' : world)
         (k k' : pystr) (temp temp' : float) (model_id model_id' : pystr),
    fst (_get_api_key w) = Ok (Some k) -> k <> [] ->
    fst (_get_api_key w') = Ok (Some k') -> k' <> [] ->
    exists prompt,
      user_prompts
        (trace (snd (generate_novel b protagonist1 protagonist2 genre premise
                       language target_words temp model_id w)))
      = user_prompts (trace w) ++ [prompt] /\
      user_prompts
        (trace (snd (generate_novel b' protagonist1' protagonist2' genre'
                       premise' language' target_words' temp' model_id' w')))
      = user_prompts (trace w') ++ [prompt].
Proof.
  intros <- <- <- <- <- <-. split; [reflexivity|].
  intros b b' w w' k k' temp temp' model_id model_id' Hk Hne Hk' Hne'.
  exists (style_guide protagonist1 protagonist2 genre premise language
            target_words).
  rewrite (generate_novel_trace b _ _ _ _ _ _ _ _ w k Hk Hne).
  rewrite (generate_novel_trace b' _ _ _ _ _ _ _ _ w' k' Hk' Hne').
  rewrite !user_prompts_app, !user_prompts_of_request. auto.
Qed.

(* ===================================================================== *)
(** ** Facts about lines and stripping *)
(* ===================================================================== *)

Lemma split_nl_nonempty (s : pystr) : split_nl s <> [].
Proof.
  destruct s as [|c s]; cbn; [discriminate|].
  destruct (c =? NL); [discriminate|].
  destruct (split_nl s); discriminate.
Qed.

Lemma split_nl_cons (c : N) (s : pystr) :
  (c =? NL) = false ->
  split_nl (c :: s) = (c :: hd [] (split_nl s)) :: tl (split_nl s).
Proof.
  intros Hc. cbn. rewrite Hc.
  pose proof (split_nl_nonempty s). now destruct (split_nl s).
Qed.

Lemma split_nl_app (a b : pystr) :
  single_line a = true ->
  split_nl (a ++ b) = (a ++ hd [] (split_nl b)) :: tl (split_nl b).
Proof.
  intros Ha. induction a as [|c a IH]; cbn [app].
  - pose proof (split_nl_nonempty b). now destruct (split_nl b).
  - cbn in Ha. apply andb_true_iff in Ha as [Hc Ha].
    apply negb_true_iff in Hc.
    rewrite (split_nl_cons c _ Hc), (IH Ha). reflexivity.
Qed.

Lemma split_nl_single (a : pystr) :
  single_line a = true -> split_nl a = [a].
Proof.
  intros Ha. rewrite <- (app_nil_r a) at 1.
  rewrite (split_nl_app a [] Ha). cbn. now rewrite app_nil_r.
Qed.

Lemma split_nl_app_nl (a b : pystr) :
  single_line a = true -> split_nl (a ++ NL :: b) = a :: split_nl b.
Proof.
  intros Ha. rewrite (split_nl_app a _ Ha). cbn. now rewrite app_nil_r.
Qed.

Lemma join_nl_cons (l : pystr) (ls : list pystr) :
  ls <> [] -> join_nl (l :: ls) = l ++ NL :: join_nl ls.
Proof. destruct ls; [congruence | reflexivity]. Qed.

Lemma join_nl_app (ls1 ls2 : list pystr) :
  ls1 <> [] -> ls2 <> [] ->
  join_nl (ls1 ++ ls2) = join_nl ls1 ++ NL :: join_nl ls2.
Proof.
  intros H1 H2. induction ls1 as [|l ls1 IH]; [congruence|].
  destruct ls1 as [|l' ls1].
  - cbn [app]. now rewrite join_nl_cons.
  - change ((l :: l' :: ls1) ++ ls2) with (l :: ((l' :: ls1) ++ ls2)).
    rewrite join_nl_cons by discriminate.
    rewrite IH by discriminate.
    rewrite (join_nl_cons l (l' :: ls1)) by discriminate.
    now rewrite <- app_assoc.
Qed.

Lemma join_split (s : pystr) : join_nl (split_nl s) = s.
Proof.
  induction s as [|c s IH]; [reflexivity|].
  cbn [split_nl]. pose proof (split_nl_nonempty s) as Hne.
  destruct (c =? NL) eqn:Hc.
  - apply N.eqb_eq in Hc. subst c.
    rewrite join_nl_cons by assumption. now rewrite IH.
  - destruct (split_nl s) as [|l ls]; [congruence|].
    destruct ls as [|l' ls]; cbn in IH |- *; now rewrite <- IH.
Qed.

Lemma split_join (ls : list pystr) :
  ls <> [] -> Forall (fun l => single_line l = true) ls ->
  split_nl (join_nl ls) = ls.
Proof.
  intros Hne Hall. induction Hall as [|l ls Hl Hall IH]; [congruence|].
  destruct ls as [|l' ls].
  - cbn. now apply split_nl_single.
  - rewrite join_nl_cons by discriminate.
    rewrite (split_nl_app_nl l _ Hl). now rewrite IH.
Qed.

Lemma split_nl_lines (s : pystr) :
  Forall (fun l => single_line l = true) (split_nl s).
Proof.
  induction s as [|c s IH]; [repeat constructor|].
  cbn [split_nl]. destruct (c =? NL) eqn:Hc.
  - constructor; [reflexivity | assumption].
  - destruct (split_nl s) as [|l ls]; [repeat constructor; cbn; now rewrite Hc|].
    inversion IH; subst. constructor; [|assumption].
    cbn. rewrite Hc. assumption.
Qed.

(** The last line of a list of lines can be given as its own lines. *)
Lemma join_nl_last (pre : list pystr) (x : pystr) (ls post : list pystr) :
  ls <> [] ->
  join_nl (pre ++ [x ++ join_nl ls] ++ post) =
  join_nl (pre ++ (x ++ hd [] ls) :: tl ls ++ post).
Proof.
  intros Hne. destruct ls as [|l0 rest]; [congruence|]. cbn [hd tl].
  assert (Hcore : join_nl ([x ++ join_nl (l0 :: rest)] ++ post) =
                  join_nl ((x ++ l0) :: rest ++ post)).
  { destruct rest as [|l1 rest].
    - reflexivity.
    - destruct post as [|p post].
      + rewrite !app_nil_r.
        rewrite (join_nl_cons (x ++ l0)) by discriminate.
        rewrite (join_nl_cons l0) by discriminate.
        cbn [join_nl]. now rewrite <- app_assoc.
      + change ([x ++ join_nl (l0 :: l1 :: rest)] ++ p :: post)
          with ((x ++ join_nl (l0 :: l1 :: rest)) :: p :: post).
        rewrite join_nl_cons by discriminate.
        rewrite (join_nl_cons (x ++ l0)) by discriminate.
        rewrite (join_nl_app (l1 :: rest) (p :: post)) by discriminate.
        rewrite (join_nl_cons l0) by discriminate.
        now rewrite <- !app_assoc. }
  destruct pre as [|p0 pre]; [exact Hcore|].
  rewrite (join_nl_app (p0 :: pre)) by (discriminate || (destruct post; discriminate)).
  rewrite (join_nl_app (p0 :: pre) ((x ++ l0) :: rest ++ post)) by discriminate.
  now rewrite Hcore.
Qed.

(* ===================================================================== *)
(** ** Facts about [dedent] on an indented template *)
(* ===================================================================== *)

Lemma startswith_nil (s : pystr) : startswith s [] = true.
Proof. now destruct s. Qed.

Lemma startswith_refl (s : pystr) : startswith s s = true.
Proof. induction s as [|c s IH]; [reflexivity|]. cbn. now rewrite N.eqb_refl. Qed.

Lemma startswith_app (m l : pystr) : startswith (m ++ l) m = true.
Proof.
  induction m as [|c m IH]; [apply startswith_nil|]. cbn. now rewrite N.eqb_refl.
Qed.

Lemma blank_line_indent (l : pystr) :
  flush l = true -> blank_line (indent_line INDENT l) = indent_line INDENT l.
Proof.
  destruct l as [|c l]; [reflexivity|]. cbn [flush]. intros Hc.
  apply negb_true_iff in Hc. unfold blank_line. cbn. now rewrite Hc.
Qed.

Lemma indents_indent (l : pystr) (ls : list pystr) :
  flush l = true ->
  indents (indent_line INDENT l :: ls) =
  match l with [] => indents ls | _ :: _ => INDENT :: indents ls end.
Proof.
  destruct l as [|c l]; [reflexivity|]. cbn [flush]. intros Hc.
  apply negb_true_iff in Hc. cbn. now rewrite Hc.
Qed.

Lemma remove_margin_indent (l : pystr) :
  remove_margin INDENT (indent_line INDENT l) = l.
Proof.
  destruct l as [|c l]; [reflexivity|].
  unfold remove_margin, indent_line. now rewrite startswith_app.
Qed.

Lemma map_blank_line_indent (F : list pystr) :
  Forall (fun l => flush l = true) F ->
  map blank_line (map (indent_line INDENT) F) = map (indent_line INDENT) F.
Proof.
  induction 1 as [|l F Hl _ IH]; [reflexivity|].
  cbn [map]. now rewrite blank_line_indent, IH.
Qed.

Lemma map_remove_margin_indent (F : list pystr) :
  map (remove_margin INDENT) (map (indent_line INDENT) F) = F.
Proof.
  induction F as [|l F IH]; [reflexivity|].
  cbn [map]. now rewrite remove_margin_indent, IH.
Qed.

Lemma indents_app (A B : list pystr) :
  indents (A ++ B) = indents A ++ indents B.
Proof.
  induction A as [|l A IH]; [reflexivity|].
  cbn. destruct (after_ws l); now rewrite IH.
Qed.

Lemma indents_indent_all (F : list pystr) :
  Forall (fun l => flush l = true) F ->
  Forall (fun i => i = INDENT) (indents (map (indent_line INDENT) F)).
Proof.
  induction 1 as [|l F Hl _ IH]; [constructor|].
  cbn [map]. rewrite (indents_indent l _ Hl).
  destruct l; [assumption | constructor; [reflexivity | assumption]].
Qed.

(** The margin loop started from [m] over indentations all equal to [m]. *)
Lemma fold_margin_same (m : pystr) (inds : list pystr) :
  Forall (fun i => i = m) inds ->
  fold_left margin_step inds (Some m) = Some m.
Proof.
  induction 1 as [|i inds -> _ IH]; [reflexivity|].
  cbn. now rewrite startswith_refl.
Qed.

Lemma startswith_cut_l (m i : pystr) :
  startswith m (cut_at_mismatch m i) = true.
Proof.
  revert i. induction m as [|x m IH]; intros i.
  - destruct i; reflexivity.
  - destruct i as [|y i]; cbn [cut_at_mismatch].
    + apply startswith_refl.
    + destruct (x =? y); [|reflexivity]. cbn. rewrite N.eqb_refl. apply IH.
Qed.

Lemma startswith_cut_r (m i : pystr) :
  startswith m i = false -> startswith i (cut_at_mismatch m i) = true.
Proof.
  revert i. induction m as [|x m IH]; intros i.
  - intros _. destruct i; [reflexivity | apply startswith_nil].
  - destruct i as [|y i]; [discriminate|]. cbn.
    rewrite (N.eqb_sym y x). destruct (x =? y) eqn:Hxy; [|reflexivity].
    cbn. intros H. apply N.eqb_eq in Hxy. subst y.
    rewrite N.eqb_refl. cbn. now apply IH.
Qed.

Lemma startswith_trans (a b c : pystr) :
  startswith a b = true -> startswith b c = true -> startswith a c = true.
Proof.
  revert a b. induction c as [|z c IH]; intros a b;
    [intros; apply startswith_nil|].
  destruct b as [|y b]; [discriminate|]. destruct a as [|x a]; [discriminate|].
  cbn. intros H1 H2.
  apply andb_true_iff in H1 as [Hyx H1]. apply andb_true_iff in H2 as [Hzy H2].
  apply N.eqb_eq in Hyx, Hzy. subst. rewrite N.eqb_refl. cbn. eauto.
Qed.

(** One step of the margin loop yields a common prefix. *)
Lemma margin_step_prefix (m i : pystr) :
  exists m', margin_step (Some m) i = Some m' /\
             startswith m m' = true /\ startswith i m' = true.
Proof.
  unfold margin_step.
  destruct (startswith i m) eqn:H1.
  { exists m. auto using startswith_refl. }
  destruct (startswith m i) eqn:H2.
  { exists i. auto using startswith_refl. }
  exists (cut_at_mismatch m i).
  auto using startswith_cut_l, startswith_cut_r.
Qed.

Lemma fold_margin_prefix (inds : list pystr) (m0 : pystr) :
  exists m, fold_left margin_step inds (Some m0) = Some m /\
            startswith m0 m = true /\
            Forall (fun i => startswith i m = true) inds.
Proof.
  revert m0. induction inds as [|i inds IH]; intros m0.
  - exists m0. cbn. auto using startswith_refl.
  - destruct (margin_step_prefix m0 i) as (m1 & Hstep & Hm & Hi).
    destruct (IH m1) as (m & Hfold & Hm1 & Hall).
    exists m. cbn [fold_left]. rewrite Hstep. split; [assumption|]. split.
    + eauto using startswith_trans.
    + constructor; [eauto using startswith_trans | assumption].
Qed.

(** With an indented line and a line off the left edge by something else
    than a space, the margin is empty. *)
Lemma find_margin_empty (inds : list pystr) (i : pystr) :
  In i inds -> startswith i [SP] = false ->
  find_margin (INDENT :: inds) = Some [].
Proof.
  intros Hin Hi. unfold find_margin. cbn [fold_left margin_step].
  destruct (fold_margin_prefix inds INDENT) as (m & -> & Hm & Hall).
  f_equal. destruct m as [|c m]; [reflexivity|]. exfalso.
  rewrite List.Forall_forall in Hall. specialize (Hall i Hin).
  destruct i as [|y i]; [discriminate|].
  unfold INDENT in Hm. cbn [startswith] in Hm, Hall, Hi.
  apply andb_true_iff in Hm as [Hc _]. apply andb_true_iff in Hall as [Hy _].
  apply N.eqb_eq in Hc, Hy. subst. rewrite N.eqb_refl, startswith_nil in Hi.
  discriminate.
Qed.

Lemma indents_off_space (ls : list pystr) :
  Forall (fun l => whitespace_only l = false) ls ->
  Exists (fun l => starts_off_space l = true) ls ->
  exists i, In i (indents ls) /\ startswith i [SP] = false.
Proof.
  intros Hall Hex. induction Hex as [l ls Hl | l ls _ IH].
  - inversion Hall as [|? ? Hw _]; subst.
    destruct l as [|c l]; [discriminate|]. cbn in Hl.
    apply negb_true_iff in Hl.
    exists (leading_ws (c :: l)). split.
    + cbn [indents]. destruct (after_ws (c :: l)) eqn:Ha; [|now left].
      exfalso. clear Hl. cbn [whitespace_only] in Hw.
      assert (Hf : forallb is_sp_tab (c :: l) = true).
      { clear Hw. revert Ha. generalize (c :: l). intros s.
        induction s as [|x s IHs]; [reflexivity|]. cbn.
        destruct (is_sp_tab x); [auto | discriminate]. }
      congruence.
    + cbn [leading_ws]. destruct (is_sp_tab c); [|reflexivity].
      cbn [startswith]. rewrite N.eqb_sym. now rewrite Hl.
  - inversion Hall; subst. destruct IH as (i & Hin & Hi); [assumption|].
    exists i. split; [|assumption].
    cbn [indents]. destruct (after_ws l); [assumption | now right].
Qed.

Lemma map_blank_line_id (ls : list pystr) :
  Forall (fun l => whitespace_only l = false) ls -> map blank_line ls = ls.
Proof.
  induction 1 as [|l ls Hl _ IH]; [reflexivity|].
  cbn [map]. unfold blank_line at 1. now rewrite Hl, IH.
Qed.

(* ===================================================================== *)
(** ** The shape of the prompt *)
(* ===================================================================== *)

Lemma single_line_app (a b : pystr) :
  single_line (a ++ b) = single_line a && single_line b.
Proof. apply forallb_app. Qed.

Lemma single_line_digits (d : Decimal.uint) :
  single_line (lit (NilEmpty.string_of_uint d)) = true.
Proof. induction d; cbn; auto. Qed.

Lemma single_line_uint (d : Decimal.uint) :
  single_line (lit (NilZero.string_of_uint d)) = true.
Proof.
  destruct d; [reflexivity | ..];
    match goal with
    | |- single_line (lit (NilZero.string_of_uint ?x)) = true =>
      apply (single_line_digits x)
    end.
Qed.

Lemma single_line_str_int (n : Z) : single_line (str_int n) = true.
Proof.
  unfold str_int, NilZero.string_of_int.
  destruct (Z.to_int n) as [d|d]; [apply single_line_uint|].
  change (lit (String "-" (NilZero.string_of_uint d)))
    with (45 :: lit (NilZero.string_of_uint d)).
  change (single_line (45 :: lit (NilZero.string_of_uint d)))
    with (single_line (lit (NilZero.string_of_uint d))).
  apply single_line_uint.
Qed.

(** Joining an indented template whose last line continues in further
    lines. *)
Lemma join_indented_lines (K b : pystr) (R0 : list pystr)
    (c : N) (x l1 : pystr) (rest : list pystr) :
  b <> [] ->
  join_nl (map (indent_line K) (b :: R0 ++ [c :: x]) ++ l1 :: rest) =
  K ++ join_nl (b :: map (indent_line K) R0
                ++ [K ++ join_nl ((c :: x) :: l1 :: rest)]).
Proof.
  intros Hb. destruct b as [|c1 x1]; [congruence|].
  rewrite map_cons, map_app.
  change (indent_line K (c1 :: x1)) with (K ++ c1 :: x1).
  change (map (indent_line K) [c :: x]) with [K ++ c :: x].
  change (((K ++ c1 :: x1) :: map (indent_line K) R0 ++ [K ++ c :: x])
          ++ l1 :: rest)
    with ((K ++ c1 :: x1)
          :: (map (indent_line K) R0 ++ [K ++ c :: x]) ++ l1 :: rest).
  rewrite join_nl_cons by (destruct (map (indent_line K) R0); discriminate).
  rewrite (join_nl_cons (c1 :: x1))
    by (destruct (map (indent_line K) R0); discriminate).
  rewrite <- !app_assoc.
  pose proof (join_nl_last (map (indent_line K) R0) K
                ((c :: x) :: l1 :: rest) []) as Hlast.
  rewrite !app_nil_r in Hlast. cbn [hd tl] in Hlast.
  rewrite Hlast by discriminate.
  reflexivity.
Qed.

Section Prompt.

Variables protagonist1 protagonist2 genre premise language : pystr.
Variable target_words : Z.

Local Abbreviation body :=
  (first_line language
   :: rest_lines protagonist1 protagonist2 genre target_words).

(** The f-string, seen as lines. *)
Lemma style_guide_text :
  style_guide protagonist1 protagonist2 genre premise language target_words =
  strip (dedent (join_nl ([] :: map (indent_line INDENT) body
                          ++ [INDENT ++ strip premise] ++ [INDENT]))).
Proof.
  unfold style_guide. do 2 f_equal.
  unfold first_line, rest_lines, INDENT, SP.
  generalize (strip premise) as P. generalize (str_int target_words) as n.
  intros n P. eval_lits.
  cbn [map indent_line app join_nl].
  rewrite <- !app_assoc. cbn [app]. reflexivity.
Qed.

Hypothesis Hlanguage : single_line language = true.
Hypothesis Hgenre : single_line genre = true.
Hypothesis Hprotagonist1 : single_line protagonist1 = true.
Hypothesis Hprotagonist2 : single_line protagonist2 = true.

Lemma body_single_line : Forall (fun l => single_line l = true) body.
Proof.
  unfold first_line, rest_lines.
  repeat (apply List.Forall_cons).
  all: try apply List.Forall_nil.
  all: rewrite ?single_line_app.
  all: repeat match goal with
              | |- _ && _ = true => apply andb_true_iff; split
              end.
  all: try match goal with
           | |- single_line (str_int _) = true => apply single_line_str_int
           | |- single_line (lit _) = true => vm_compute; reflexivity
           | |- single_line [] = true => reflexivity
           | |- _ => assumption
           end.
Qed.

Lemma body_flush : Forall (fun l => flush l = true) body.
Proof.
  unfold first_line, rest_lines. eval_lits.
  repeat (apply List.Forall_cons); [..|apply List.Forall_nil]; reflexivity.
Qed.

Lemma single_line_indent (K l : pystr) :
  single_line K = true -> single_line l = true ->
  single_line (indent_line K l) = true.
Proof.
  intros HK Hl. destruct l; [reflexivity|].
  unfold indent_line. rewrite single_line_app. now rewrite HK, Hl.
Qed.

Lemma Forall_single_line_indent (ls : list pystr) :
  Forall (fun l => single_line l = true) ls ->
  Forall (fun l => single_line l = true) (map (indent_line INDENT) ls).
Proof.
  induction 1; constructor; [now apply single_line_indent | assumption].
Qed.

Lemma first_line_cons : exists c x, first_line language = c :: x.
Proof. unfold first_line. eval_lits. cbn [app]. eauto. Qed.

Lemma first_line_flush : flush (first_line language) = true.
Proof. pose proof body_flush as Hb. now inversion Hb. Qed.

Lemma first_line_single : single_line (first_line language) = true.
Proof. pose proof body_single_line as Hb. now inversion Hb. Qed.

Lemma template_blank (F1 rest : list pystr) :
  Forall (fun l => flush l = true) F1 ->
  Forall (fun l => whitespace_only l = false) rest ->
  map blank_line ([] :: map (indent_line INDENT) F1 ++ rest ++ [INDENT]) =
  [] :: map (indent_line INDENT) F1 ++ rest ++ [[]].
Proof.
  intros HF1f Hrws.
  cbn [map]. rewrite !map_app, (map_blank_line_indent F1 HF1f).
  rewrite (map_blank_line_id rest Hrws). reflexivity.
Qed.

Lemma indents_skip_empty (ls : list pystr) : indents ([] :: ls) = indents ls.
Proof. reflexivity. Qed.

Lemma indents_end_empty : indents [[]] = [].
Proof. reflexivity. Qed.

Lemma indents_indent_cons (c : N) (x : pystr) (ls : list pystr) :
  flush (c :: x) = true ->
  indents (indent_line INDENT (c :: x) :: ls) = INDENT :: indents ls.
Proof. intros Hf. now rewrite (indents_indent (c :: x) ls Hf). Qed.

Lemma template_indents_gen (b : pystr) (F rest : list pystr) :
  flush b = true -> b <> [] ->
  indents ([] :: map (indent_line INDENT) (b :: F) ++ rest ++ [[]]) =
  INDENT :: indents (map (indent_line INDENT) F) ++ indents rest.
Proof.
  intros Hf Hne. destruct b as [|c x]; [congruence|].
  rewrite indents_skip_empty, !indents_app, indents_end_empty, app_nil_r.
  rewrite map_cons, (indents_indent_cons c x _ Hf). reflexivity.
Qed.

Lemma template_indents (F rest : list pystr) :
  indents ([] :: map (indent_line INDENT) (first_line language :: F)
           ++ rest ++ [[]]) =
  INDENT :: indents (map (indent_line INDENT) F) ++ indents rest.
Proof.
  apply template_indents_gen; [apply first_line_flush|].
  destruct first_line_cons as (c & x & ->). discriminate.
Qed.

(** What [dedent] makes of the template when the lines after it (those of
    a premise of several lines) are [rest]. *)
Lemma dedent_template (F rest : list pystr) :
  Forall (fun l => flush l = true) F ->
  Forall (fun l => single_line l = true) F ->
  Forall (fun l => single_line l = true) rest ->
  Forall (fun l => whitespace_only l = false) rest ->
  (rest = [] \/ Exists (fun l => starts_off_space l = true) rest) ->
  dedent (join_nl ([] :: map (indent_line INDENT) (first_line language :: F)
                   ++ rest ++ [INDENT])) =
  match rest with
  | [] => join_nl ([] :: (first_line language :: F) ++ [[]])
  | _ => join_nl ([] :: map (indent_line INDENT) (first_line language :: F)
                  ++ rest ++ [[]])
  end.
Proof.
  intros Hflush Hsl Hrsl Hrws Hrest.
  pose proof first_line_flush as Hff. pose proof first_line_single as Hfs.
  unfold dedent.
  rewrite split_join; [|discriminate|].
  2:{ apply List.Forall_cons; [reflexivity|]. apply Forall_app. split.
      - apply Forall_single_line_indent. now apply List.Forall_cons.
      - apply Forall_app. split; [assumption|].
        apply List.Forall_cons; [reflexivity | apply List.Forall_nil]. }
  cbv zeta.
  rewrite template_blank; [|now apply List.Forall_cons | assumption].
  rewrite template_indents.
  destruct Hrest as [-> | Hex].
  - cbn [indents]. rewrite app_nil_r.
    unfold find_margin. cbn [fold_left margin_step].
    rewrite (fold_margin_same INDENT) by now apply indents_indent_all.
    change INDENT with (SP :: tl INDENT) at 1. cbv iota.
    change (SP :: tl INDENT) with INDENT.
    change (map (remove_margin INDENT)
              ([] :: map (indent_line INDENT) (first_line language :: F)
               ++ [] ++ [[]]))
      with ([] :: map (remove_margin INDENT)
                    (map (indent_line INDENT) (first_line language :: F)
                     ++ [[]])).
    rewrite map_app, map_remove_margin_indent.
    reflexivity.
  - destruct (indents_off_space rest Hrws Hex) as (i & Hin & Hi).
    rewrite (find_margin_empty _ i); [|apply in_or_app; now right | assumption].
    destruct rest; [inversion Hex | reflexivity].
Qed.

Lemma indent_line_nil (ls : list pystr) : map (indent_line []) ls = ls.
Proof.
  induction ls as [|l ls IH]; [reflexivity|].
  cbn [map]. rewrite IH. now destruct l.
Qed.

(** The prompt is everything before the premise, then the premise. *)
Lemma layout_split (K P : pystr) :
  layout K protagonist1 protagonist2 genre language target_words P =
  (join_nl (first_line language
            :: map (indent_line K)
                   (rest_lines protagonist1 protagonist2 genre target_words))
   ++ NL :: K) ++ P.
Proof.
  unfold layout.
  change (first_line language
          :: map (indent_line K)
               (rest_lines protagonist1 protagonist2 genre target_words)
          ++ [K ++ P])
    with ((first_line language
           :: map (indent_line K)
                (rest_lines protagonist1 protagonist2 genre target_words))
          ++ [K ++ P]).
  rewrite join_nl_app by discriminate.
  cbn [join_nl]. rewrite <- !app_assoc. reflexivity.
Qed.

Lemma layout_starts (K P : pystr) :
  starts_nonspace
    (layout K protagonist1 protagonist2 genre language target_words P) = true.
Proof.
  unfold layout. rewrite join_nl_cons by (unfold rest_lines; discriminate).
  destruct first_line_cons as (c & x & Hc). pose proof Hc as Hc'.
  unfold first_line in Hc'. revert Hc'. eval_lits. cbn [app].
  intros Hc'. injection Hc' as <- _. rewrite Hc. reflexivity.
Qed.

Lemma layout_ends (K P : pystr) :
  starts_nonspace (rev P) = true ->
  starts_nonspace
    (rev (layout K protagonist1 protagonist2 genre language target_words P))
  = true.
Proof.
  intros HP. rewrite layout_split, rev_app_distr.
  now apply starts_nonspace_app.
Qed.

Lemma is_space_sp_tab (c : N) : is_sp_tab c = true -> is_space c = true.
Proof.
  unfold is_sp_tab. intros H. apply orb_true_iff in H as [H|H];
    apply N.eqb_eq in H; subst c; reflexivity.
Qed.

Local Abbreviation tail_lines :=
  (rest_lines protagonist1 protagonist2 genre target_words).

Lemma first_line_nonempty : first_line language <> [].
Proof. destruct first_line_cons as (c & x & ->). discriminate. Qed.

Lemma tail_lines_nonempty : tail_lines <> [].
Proof. unfold rest_lines. discriminate. Qed.

Lemma layout_eq (K P : pystr) :
  layout K protagonist1 protagonist2 genre language target_words P =
  join_nl (first_line language :: map (indent_line K) tail_lines ++ [K ++ P]).
Proof. reflexivity. Qed.

(** Stripping the dedented text of a one-line premise. *)
Lemma strip_one_line (P : pystr) :
  starts_nonspace (rev P) = true ->
  strip (join_nl ([] :: (first_line language :: tail_lines ++ [P]) ++ [[]])) =
  layout [] protagonist1 protagonist2 genre language target_words P.
Proof.
  intros He.
  rewrite join_nl_cons by discriminate.
  rewrite join_nl_app by discriminate.
  change (join_nl [[]]) with (@nil N).
  assert (Hcore : join_nl (first_line language :: tail_lines ++ [P]) =
                  layout [] protagonist1 protagonist2 genre language
                         target_words P).
  { rewrite layout_eq, indent_line_nil, app_nil_l. reflexivity. }
  rewrite Hcore, app_nil_l.
  apply (strip_padded [NL] _ [NL]);
    [reflexivity | reflexivity | apply layout_starts | now apply layout_ends].
Qed.

(** Stripping the text of a premise of several lines, which [dedent]
    leaves indented. *)
Lemma strip_several_lines (c : N) (x l1 : pystr) (rest : list pystr) :
  starts_nonspace (rev (join_nl ((c :: x) :: l1 :: rest))) = true ->
  strip (join_nl ([] :: map (indent_line INDENT)
                          (first_line language :: tail_lines ++ [c :: x])
                  ++ (l1 :: rest) ++ [[]])) =
  layout INDENT protagonist1 protagonist2 genre language target_words
         (join_nl ((c :: x) :: l1 :: rest)).
Proof.
  intros He.
  rewrite join_nl_cons by discriminate.
  rewrite app_assoc, join_nl_app; [|discriminate..].
  change (join_nl [[]]) with (@nil N).
  rewrite join_indented_lines by apply first_line_nonempty.
  rewrite <- layout_eq.
  rewrite <- !app_assoc, app_nil_l.
  apply (strip_padded (NL :: INDENT) _ [NL]);
    [reflexivity | reflexivity | apply layout_starts | now apply layout_ends].
Qed.

(** The closed form of the prompt. *)
Lemma style_guide_layout :
  strip premise <> [] -> dedent_keeps (strip premise) = true ->
  style_guide protagonist1 protagonist2 genre premise language target_words =
  layout (kept_indent (strip premise)) protagonist1 protagonist2 genre
         language target_words (strip premise).
Proof.
  intros HP Hkeep. rewrite style_guide_text.
  destruct (strip_ends premise) as [H0 | [Hs He]]; [congruence|].
  generalize dependent (strip premise). intros P HP Hkeep Hs He.
  pose proof (join_split P) as Hjoin.
  pose proof (split_nl_lines P) as Hlines.
  unfold dedent_keeps in Hkeep. unfold kept_indent.
  (* the first line of the premise *)
  assert (Hfirst : exists c x, hd [] (split_nl P) = c :: x /\ is_space c = false).
  { destruct P as [|c P']; [congruence|]. cbn [starts_nonspace] in Hs.
    apply negb_true_iff in Hs.
    assert (Hc : (c =? NL) = false).
    { destruct (c =? NL) eqn:E; [|reflexivity].
      apply N.eqb_eq in E. subst c. discriminate. }
    rewrite (split_nl_cons c P' Hc). cbn [hd]. eauto. }
  pose proof (split_nl_nonempty P) as Hne.
  destruct (split_nl P) as [|P0 rest]; [congruence|]. clear Hne.
  cbn [hd tl] in Hfirst, Hkeep |- *. destruct Hfirst as (c & x & -> & Hc).
  assert (Hfl : flush (c :: x) = true).
  { cbn [flush]. apply negb_true_iff. destruct (is_sp_tab c) eqn:E; [|reflexivity].
    apply is_space_sp_tab in E. congruence. }
  apply List.Forall_cons_iff in Hlines as [Hl0 Hlrest].
  subst P.
  (* the text as template lines followed by the later premise lines *)
  rewrite app_comm_cons.
  rewrite (join_nl_last ([] :: map (indent_line INDENT) body) INDENT
             ((c :: x) :: rest) [INDENT]) by discriminate.
  cbn [hd tl].
  rewrite <- app_comm_cons.
  change ((INDENT ++ c :: x) :: rest ++ [INDENT])
    with (map (indent_line INDENT) [c :: x] ++ rest ++ [INDENT]).
  rewrite app_assoc, <- map_app, <- app_comm_cons.
  pose proof body_flush as Hbf. pose proof body_single_line as Hbs.
  apply List.Forall_cons_iff in Hbf as [_ Hbf'].
  apply List.Forall_cons_iff in Hbs as [_ Hbs'].
  rewrite dedent_template; cycle 1.
  { apply Forall_app. split; [assumption|].
    apply List.Forall_cons; [assumption | apply List.Forall_nil]. }
  { apply Forall_app. split; [assumption|].
    apply List.Forall_cons; [assumption | apply List.Forall_nil]. }
  { assumption. }
  { destruct rest as [|l1 rest]; [apply List.Forall_nil|].
    apply andb_true_iff in Hkeep as [Hall _].
    rewrite forallb_forall in Hall. apply List.Forall_forall.
    intros l Hl. apply negb_true_iff. now apply Hall. }
  { destruct rest as [|l1 rest]; [now left|]. right.
    apply andb_true_iff in Hkeep as [_ Hex].
    apply existsb_exists in Hex as (l & Hl & Hso).
    apply List.Exists_exists. eauto. }
  destruct rest as [|l1 rest].
  - change (join_nl [c :: x]) with (c :: x) in He |- *.
    now apply strip_one_line.
  - now apply strip_several_lines.
Qed.

End Prompt.

(* ===================================================================== *)
(** ** What the prompt contains *)
(* ===================================================================== *)

Lemma contains_refl (x : pystr) : contains x x.
Proof. exists [], []. cbn. now rewrite app_nil_r. Qed.

Lemma contains_app_r (x a b : pystr) : contains x b -> contains x (a ++ b).
Proof.
  intros (pre & post & ->). exists (a ++ pre), post. now rewrite <- app_assoc.
Qed.

Lemma contains_app_l (x a b : pystr) : contains x a -> contains x (a ++ b).
Proof.
  intros (pre & post & ->). exists pre, (post ++ b). now rewrite <- !app_assoc.
Qed.

Lemma contains_cons (x : pystr) (c : N) (b : pystr) :
  contains x b -> contains x (c :: b).
Proof. apply (contains_app_r x [c] b). Qed.

Lemma contains_join_nl (x l : pystr) (ls : list pystr) :
  In l ls -> contains x l -> contains x (join_nl ls).
Proof.
  intros Hin Hx. induction ls as [|l0 ls IH]; [contradiction|].
  destruct ls as [|l1 ls].
  - destruct Hin as [-> | []]. exact Hx.
  - rewrite join_nl_cons by discriminate.
    destruct Hin as [-> | Hin].
    + now apply contains_app_l.
    + apply contains_app_r, contains_cons. now apply IH.
Qed.

Lemma contains_indent_line (x K l : pystr) :
  contains x l -> contains x (indent_line K l).
Proof. destruct l; [trivial|]. apply contains_app_r. Qed.

Lemma startswith_split (s p : pystr) :
  startswith s p = true -> exists post, s = p ++ post.
Proof.
  revert s. induction p as [|a p IH]; intros s H; [now exists s|].
  destruct s as [|b s]; [discriminate|]. cbn in H.
  apply andb_true_iff in H as [Hab H]. apply N.eqb_eq in Hab. subst b.
  destruct (IH s H) as (post & ->). now exists post.
Qed.

(** [contains] is: [occurrences] is not zero. *)
Lemma occurrences_contains (needle hay : pystr) :
  (0 < occurrences needle hay)%nat <-> contains needle hay.
Proof.
  split.
  - induction hay as [|c hay IH]; cbn [occurrences].
    + destruct (startswith [] needle) eqn:Hs; [|lia]. intros _.
      destruct (startswith_split _ _ Hs) as (post & Heq).
      exists [], post. exact Heq.
    + destruct (startswith (c :: hay) needle) eqn:Hs.
      * intros _. destruct (startswith_split _ _ Hs) as (post & Heq).
        exists [], post. exact Heq.
      * intros H. apply contains_cons, IH. lia.
  - intros (pre & post & ->). induction pre as [|c pre IH].
    + cbn [app]. destruct (needle ++ post) eqn:E; cbn [occurrences];
        rewrite <- E, startswith_app; lia.
    + cbn [app occurrences]. lia.
Qed.

Lemma genres_single_line (g : pystr) : In g GENRES -> single_line g = true.
Proof.
  unfold GENRES. cbn [In]. intros H.
  repeat (destruct H as [<- | H]; [vm_compute; reflexivity|]). contradiction.
Qed.

Lemma languages_single_line (l : pystr) :
  In l LANGUAGES -> single_line l = true.
Proof.
  unfold LANGUAGES. cbn [In]. intros H.
  repeat (destruct H as [<- | H]; [vm_compute; reflexivity|]). contradiction.
Qed.

(** Every field is on a line of the laid-out prompt. *)
Lemma layout_contains (K protagonist1 protagonist2 genre language : pystr)
    (target_words : Z) (P : pystr) :
  let out := layout K protagonist1 protagonist2 genre language target_words P in
  contains genre out /\ contains protagonist1 out /\
  contains protagonist2 out /\ contains language out /\ contains P out.
Proof.
  cbn zeta. unfold layout.
  set (ls := first_line language
             :: map (indent_line K)
                  (rest_lines protagonist1 protagonist2 genre target_words)
             ++ [K ++ P]).
  assert (Htail : forall l,
             In l (rest_lines protagonist1 protagonist2 genre target_words) ->
             In (indent_line K l) ls).
  { intros l Hl. right. apply in_or_app. left. now apply in_map. }
  repeat split.
  - apply (contains_join_nl _ (indent_line K (lit "- Genre: " ++ genre))).
    + apply Htail. unfold rest_lines. right. left. reflexivity.
    + apply contains_indent_line, contains_app_r, contains_refl.
  - apply (contains_join_nl _
             (indent_line K (lit "- Main characters: " ++ protagonist1
                             ++ lit " and " ++ protagonist2))).
    + apply Htail. unfold rest_lines. right. right. left. reflexivity.
    + apply contains_indent_line, contains_app_r, contains_app_l,
        contains_refl.
  - apply (contains_join_nl _
             (indent_line K (lit "- Main characters: " ++ protagonist1
                             ++ lit " and " ++ protagonist2))).
    + apply Htail. unfold rest_lines. right. right. left. reflexivity.
    + apply contains_indent_line. do 3 apply contains_app_r.
      apply contains_refl.
  - apply (contains_join_nl _ (first_line language)).
    + left. reflexivity.
    + unfold first_line. apply contains_app_r, contains_app_l, contains_refl.
  - apply (contains_join_nl _ (K ++ P)).
    + right. apply in_or_app. right. left. reflexivity.
    + apply contains_app_r, contains_refl.
Qed.

(** C1, as the script has it: for a valid request whose names are single
    lines and whose trimmed premise [dedent] leaves alone, the prompt
    contains the genre, both names, the language and the trimmed premise.
    It need not contain any of them exactly once. *)
Theorem prompt_contains_fields (r : StoryRequest) :
  valid_request r ->
  single_line (sr_protagonist1 r) = true ->
  single_line (sr_protagonist2 r) = true ->
  dedent_keeps (strip (sr_premise r)) = true ->
  contains (sr_genre r) (prompt_of r) /\
  contains (sr_protagonist1 r) (prompt_of r) /\
  contains (sr_protagonist2 r) (prompt_of r) /\
  contains (sr_language r) (prompt_of r) /\
  contains (strip (sr_premise r)) (prompt_of r).
Proof.
  intros (_ & _ & HP & Hg & Hl) H1 H2 Hkeep. unfold prompt_of.
  rewrite style_guide_layout;
    auto using genres_single_line, languages_single_line.
  apply layout_contains.
Qed.

(* ===================================================================== *)
(** ** Concrete runs *)
(* ===================================================================== *)

(** C1 fails as stated: in the prompt of [naming_request], a valid request,
    the first name occurs twice and the trimmed premise does not occur at
    all ([dedent] has emptied its second line). *)
Lemma prompt_fields_not_exactly_once :
  valid_request naming_request /\
  occurrences (sr_protagonist1 naming_request) (prompt_of naming_request)
  = 2%nat /\
  occurrences (strip (sr_premise naming_request)) (prompt_of naming_request)
  = 0%nat.
Proof.
  split; [|split; vm_compute; reflexivity].
  prove_valid_request.
Qed.

Lemma prompt_contains_fields_witness :
  valid_request example_request /\
  single_line (sr_protagonist1 example_request) = true /\
  single_line (sr_protagonist2 example_request) = true /\
  dedent_keeps (strip (sr_premise example_request)) = true /\
  contains (sr_genre example_request) (prompt_of example_request) /\
  contains (sr_protagonist1 example_request) (prompt_of example_request) /\
  contains (sr_protagonist2 example_request) (prompt_of example_request) /\
  contains (sr_language example_request) (prompt_of example_request) /\
  contains (strip (sr_premise example_request)) (prompt_of example_request).
Proof.
  split; [prove_valid_request|].
  split; [vm_compute; reflexivity|].
  split; [vm_compute; reflexivity|].
  split; [vm_compute; reflexivity|].
  apply (prompt_contains_fields example_request).
  - prove_valid_request.
  - vm_compute; reflexivity.
  - vm_compute; reflexivity.
  - vm_compute; reflexivity.
Defined.

Lemma generation_error_wrapped_once_witness :
  let w := keyed_world (lit "new") in
  let k := lit "sk-secret" in
  let msg := lit "Connection error." in
  fst (_get_api_key w) = Ok (Some k) /\ k <> [] /\
  (forall h ep,
      failing_backend h {| via := ep; params := request_params example_request |}
      = ApiRaise "APIConnectionError" msg) /\
  (fst (generate failing_backend example_request w) =
     Raise (RuntimeError (lit "OpenAI API error: " ++ msg)) /\
   contains msg (str_exn (RuntimeError (lit "OpenAI API error: " ++ msg))) /\
   creates (trace (snd (generate failing_backend example_request w))) =
   creates (trace w)
   ++ [{| via := endpoint_for w k; params := request_params example_request |}]).
Proof.
  cbv zeta.
  assert (Hk : fst (_get_api_key (keyed_world (lit "new")))
               = Ok (Some (lit "sk-secret"))) by (vm_compute; reflexivity).
  assert (Hne : lit "sk-secret" <> []) by (vm_compute; discriminate).
  assert (Hb : forall h ep,
             failing_backend h
               {| via := ep; params := request_params example_request |}
             = ApiRaise "APIConnectionError" (lit "Connection error."))
    by reflexivity.
  exact (conj Hk (conj Hne (conj Hb
           (generation_error_wrapped_once failing_backend
              (sr_protagonist1 example_request)
              (sr_protagonist2 example_request) (sr_genre example_request)
              (sr_premise example_request) (sr_language example_request)
              (sr_target_words example_request)
              (sr_temperature example_request) (sr_model example_request)
              (keyed_world (lit "new")) (lit "sk-secret")
              "APIConnectionError" (lit "Connection error.") Hk Hne Hb)))).
Defined.

Lemma generation_returns_stripped_content_witness :
  let w := keyed_world (lit "legacy") in
  let k := lit "sk-secret" in
  fst (_get_api_key w) = Ok (Some k) /\ k <> [] /\
  (forall h ep,
      echo_backend h {| via := ep; params := request_params example_request |}
      = ApiReturn the_end) /\
  choices the_end = [ {| message_content := Some (lit "  THE END. ") |} ] /\
  fst (generate echo_backend example_request w) = Ok (lit "THE END.") /\
  lit "  THE END. " = lit "  " ++ lit "THE END." ++ lit " ".
Proof.
  cbv zeta.
  assert (Hk : fst (_get_api_key (keyed_world (lit "legacy")))
               = Ok (Some (lit "sk-secret"))) by (vm_compute; reflexivity).
  assert (Hne : lit "sk-secret" <> []) by (vm_compute; discriminate).
  assert (Hb : forall h ep,
             echo_backend h
               {| via := ep; params := request_params example_request |}
             = ApiReturn the_end) by reflexivity.
  assert (Hs : strip (lit "  THE END. ") = lit "THE END.")
    by (vm_compute; reflexivity).
  assert (Hparts : lit "  THE END. " = lit "  " ++ lit "THE END." ++ lit " ")
    by (vm_compute; reflexivity).
  refine (conj Hk (conj Hne (conj Hb (conj eq_refl (conj _ Hparts))))).
  destruct (generation_returns_stripped_content echo_backend
              (sr_protagonist1 example_request)
              (sr_protagonist2 example_request) (sr_genre example_request)
              (sr_premise example_request) (sr_language example_request)
              (sr_target_words example_request)
              (sr_temperature example_request) (sr_model example_request)
              (keyed_world (lit "legacy")) (lit "sk-secret") the_end
              {| message_content := Some (lit "  THE END. ") |} []
              (lit "  THE END. ") Hk Hne Hb eq_refl eq_refl)
    as (story & pre & post & Hrun & Hstory & _).
  exact (eq_trans Hrun (f_equal Ok (eq_trans Hstory Hs))).
Defined.

(** The scenario of the specification: the stripped answer is [THE END.]. *)
Example the_end_stripped : strip (lit "  THE END. ") = lit "THE END.".
Proof. vm_compute. reflexivity. Qed.

Lemma outbound_request_shape_witness :
  let w := keyed_world (lit "new") in
  let k := lit "sk-secret" in
  fst (_get_api_key w) = Ok (Some k) /\ k <> [] /\
  creates (trace (snd (generate echo_backend example_request w))) =
  creates (trace w) ++
  [{| via := endpoint_for w k;
      params :=
        {| model := sr_model example_request;
           temperature := sr_temperature example_request;
           max_tokens := 4096;
           messages :=
             [ {| role := lit "system"; content := SYSTEM_PROMPT |};
               {| role := lit "user"; content := prompt_of example_request |} ]
        |} |}].
Proof.
  cbv zeta.
  assert (Hk : fst (_get_api_key (keyed_world (lit "new")))
               = Ok (Some (lit "sk-secret"))) by (vm_compute; reflexivity).
  assert (Hne : lit "sk-secret" <> []) by (vm_compute; discriminate).
  exact (conj Hk (conj Hne
           (outbound_request_shape echo_backend
              (sr_protagonist1 example_request)
              (sr_protagonist2 example_request) (sr_genre example_request)
              (sr_premise example_request) (sr_language example_request)
              (sr_target_words example_request)
              (sr_temperature example_request) (sr_model example_request)
              (keyed_world (lit "new")) (lit "sk-secret") Hk Hne))).
Defined.

Lemma missing_credential_halts_before_call_witness :
  let w := keyless_world in
  secrets w !! OPENAI_API_KEY = None /\ environ w !! OPENAI_API_KEY = None /\
  (fst (generate echo_backend example_request w) = Raise StopException /\
   creates (trace (snd (generate echo_backend example_request w)))
   = creates (trace w)) /\
  (fst (cta_handler echo_backend example_form w) = Raise StopException /\
   trace (snd (cta_handler echo_backend example_form w)) =
     trace w ++ [CallGetApiKey None; CallSt (st_error MISSING_KEY_MESSAGE)] /\
   creates (trace (snd (cta_handler echo_backend example_form w)))
   = creates (trace w)).
Proof.
  cbv zeta.
  assert (Hs : secrets keyless_world !! OPENAI_API_KEY = None)
    by (vm_compute; reflexivity).
  assert (He : environ keyless_world !! OPENAI_API_KEY = None)
    by (vm_compute; reflexivity).
  exact (conj Hs (conj He
           (missing_credential_halts_before_call echo_backend
              (sr_protagonist1 example_request)
              (sr_protagonist2 example_request) (sr_genre example_request)
              (sr_premise example_request) (sr_language example_request)
              (sr_target_words example_request)
              (sr_temperature example_request) (sr_model example_request)
              example_form keyless_world Hs He))).
Defined.

Lemma get_api_key_precedence_witness :
  (secrets (keyed_world (lit "new")) !! OPENAI_API_KEY = Some (lit "sk-secret")
   /\ environ (keyed_world (lit "new")) !! OPENAI_API_KEY = Some (lit "sk-env")
   /\ fst (_get_api_key (keyed_world (lit "new"))) = Ok (Some (lit "sk-secret")))
  /\
  (secrets env_only_world !! OPENAI_API_KEY = None
   /\ environ env_only_world !! OPENAI_API_KEY = Some (lit "sk-env")
   /\ fst (_get_api_key env_only_world) = Ok (Some (lit "sk-env")))
  /\
  (secrets keyless_world !! OPENAI_API_KEY = None
   /\ environ keyless_world !! OPENAI_API_KEY = None
   /\ fst (_get_api_key keyless_world) = Ok None).
Proof.
  destruct get_api_key_precedence as (Hsec & Henv & Hnone).
  assert (H1 : secrets (keyed_world (lit "new")) !! OPENAI_API_KEY
               = Some (lit "sk-secret")) by (vm_compute; reflexivity).
  assert (H1' : environ (keyed_world (lit "new")) !! OPENAI_API_KEY
                = Some (lit "sk-env")) by (vm_compute; reflexivity).
  assert (H2 : secrets env_only_world !! OPENAI_API_KEY = None)
    by (vm_compute; reflexivity).
  assert (H2' : environ env_only_world !! OPENAI_API_KEY = Some (lit "sk-env"))
    by (vm_compute; reflexivity).
  assert (H3 : secrets keyless_world !! OPENAI_API_KEY = None)
    by (vm_compute; reflexivity).
  assert (H3' : environ keyless_world !! OPENAI_API_KEY = None)
    by (vm_compute; reflexivity).
  exact (conj (conj H1 (conj H1' (Hsec _ _ H1)))
          (conj (conj H2 (conj H2' (Henv _ _ H2 H2')))
                (conj H3 (conj H3' (Hnone _ H3 H3'))))).
Defined.

(** C7 fails as stated: one submission of a valid form, in a world that
    has a key, resolves the key twice, and a second submission resolves it
    twice more. *)
Lemma credential_resolved_per_submission_not_once :
  resolutions
    (trace (session echo_backend [example_form] (keyed_world (lit "new"))))
  = [Some (lit "sk-secret"); Some (lit "sk-secret")] /\
  length
    (resolutions
       (trace (session echo_backend [example_form; example_form]
                 (keyed_world (lit "new")))))
  = 4%nat.
Proof. split; vm_compute; reflexivity. Qed.

Lemma sdk_style_selected_once_witness :
  let sec : gmap pystr pystr := {[ OPENAI_API_KEY := lit "sk-secret" ]} in
  let w0 := {| secrets := sec; environ := ∅; _SDK_STYLE := lit "legacy";
               openai_api_key := None; trace := [] |} in
  let fs := [example_form; example_form] in
  module_init LegacySDK sec ∅ = Ok w0 /\
  (_SDK_STYLE w0 = lit "legacy" /\
   _SDK_STYLE (session echo_backend fs w0) = _SDK_STYLE w0 /\
   Forall (fun c => is_new_shape (via c)
                    = bool_decide (_SDK_STYLE w0 = lit "new"))
          (creates (trace (session echo_backend fs w0)))).
Proof.
  cbv zeta.
  assert (Hinit :
    module_init LegacySDK {[ OPENAI_API_KEY := lit "sk-secret" ]} ∅ =
    Ok {| secrets := {[ OPENAI_API_KEY := lit "sk-secret" ]}; environ := ∅;
          _SDK_STYLE := lit "legacy"; openai_api_key := None; trace := [] |})
    by (vm_compute; reflexivity).
  exact (conj Hinit
           (sdk_style_selected_once echo_backend LegacySDK
              {[ OPENAI_API_KEY := lit "sk-secret" ]} ∅ _
              [example_form; example_form] Hinit)).
Defined.

Lemma prompt_deterministic_witness :
  style_guide (lit "지우") (lit "민서") (lit "판타지") (lit "오래된 가게...")
    (lit "한국어") 1200
  = style_guide (lit "지우") (lit "민서") (lit "판타지") (lit "오래된 가게...")
      (lit "한국어") 1200 /\
  exists prompt,
    user_prompts
      (trace (snd (generate echo_backend example_request
                     (keyed_world (lit "new")))))
    = user_prompts (trace (keyed_world (lit "new"))) ++ [prompt] /\
    user_prompts
      (trace (snd (generate failing_backend example_request env_only_world)))
    = user_prompts (trace env_only_world) ++ [prompt].
Proof.
  destruct (prompt_deterministic
              (lit "지우") (lit "민서") (lit "판타지") (lit "오래된 가게...")
              (lit "한국어") 1200
              (lit "지우") (lit "민서") (lit "판타지") (lit "오래된 가게...")
              (lit "한국어") 1200
              eq_refl eq_refl eq_refl eq_refl eq_refl eq_refl) as [Heq Hsent].
  split; [exact Heq|].
  apply (Hsent echo_backend failing_backend (keyed_world (lit "new"))
           env_only_world (lit "sk-secret") (lit "sk-env")).
  - vm_compute; reflexivity.
  - vm_compute; discriminate.
  - vm_compute; reflexivity.
  - vm_compute; discriminate.
Defined.

Lemma sdk_branches_equivalent_witness :
  let w := keyed_world (lit "new") in
  lit "legacy" <> lit "new" /\
  (forall h h' c c', params c = params c' ->
                     echo_backend h c = echo_backend h' c') /\
  fst (generate echo_backend example_request (with_style (lit "new") w)) =
  fst (generate echo_backend example_request (with_style (lit "legacy") w)) /\
  map params
    (creates (trace (snd (generate echo_backend example_request
                            (with_style (lit "new") w))))) =
  map params
    (creates (trace (snd (generate echo_backend example_request
                            (with_style (lit "legacy") w))))).
Proof.
  cbv zeta.
  assert (Hleg : lit "legacy" <> lit "new")
    by (intros H; vm_compute in H; discriminate).
  assert (Hb : forall h h' c c', params c = params c' ->
                                 echo_backend h c = echo_backend h' c')
    by reflexivity.
  destruct (sdk_branches_equivalent echo_backend
              (sr_protagonist1 example_request)
              (sr_protagonist2 example_request) (sr_genre example_request)
              (sr_premise example_request) (sr_language example_request)
              (sr_target_words example_request)
              (sr_temperature example_request) (sr_model example_request)
              (keyed_world (lit "new")) (lit "legacy") Hleg Hb)
    as (_ & _ & Hres & Hpar).
  exact (conj Hleg (conj Hb (conj Hres Hpar))).
Defined.

(** The end-to-end scenario of the specification, under both styles. *)
Example scenario_the_end :
  fst (generate echo_backend example_request (keyed_world (lit "new")))
  = Ok (lit "THE END.") /\
  fst (generate echo_backend example_request (keyed_world (lit "legacy")))
  = Ok (lit "THE END.").
Proof. split; vm_compute; reflexivity. Qed.

(** A premise of two lines whose second line is flush left: the template
    keeps its indentation and the premise is there as typed. *)
Example two_line_premise_prompt :
  style_guide (lit "Ann") (lit "Bob") (lit "SF")
    (lit "An old shop." ++ [NL] ++ lit "A summer night.") (lit "English") 400
  = lit "Write a complete short story in English.
        Requirements:
        - Genre: SF
        - Main characters: Ann and Bob
        - Start with a strong hook in the first 2–3 sentences.
        - Maintain clear scene breaks and a satisfying arc (setup → escalation → climax → resolution).
        - Show, don't tell. Keep dialogue natural.
        - Keep pacing tight and avoid filler.
        - Tone and diction should match the genre.
        - Target length: ~400 words (±15%).
        - End with a resonant final line (no meta commentary).

        Backstory / seed premise:
        An old shop.
A summer night.".
Proof. vm_compute. reflexivity. Qed.

(** A name with a line break in it is not kept either. *)
Example name_with_blank_line_lost :
  occurrences (lit "Ann" ++ [NL; SP; NL] ++ lit "Lee")
    (style_guide (lit "Ann" ++ [NL; SP; NL] ++ lit "Lee") (lit "Bob")
       (lit "SF") (lit "An old shop.") (lit "English") 400)
  = 0%nat.
Proof. vm_compute. reflexivity. Qed.

(* ===================================================================== *)
(** ** UTF-8: the download data decodes back to the story *)
(* ===================================================================== *)

(** Bits that do not overlap add up. *)
Lemma lor_shiftl_add (a b k : N) :
  b < 2 ^ k -> N.lor (N.shiftl a k) b = a * 2 ^ k + b.
Proof.
  intros Hb.
  assert (Hland : N.land (N.shiftl a k) b = 0).
  { apply N.bits_inj_0. intros n. rewrite N.land_spec.
    destruct (N.lt_ge_cases n k) as [Hn | Hn].
    - now rewrite N.shiftl_spec_low.
    - rewrite andb_false_iff. right.
      destruct (N.eq_dec b 0) as [-> | Hb0]; [apply N.bits_0|].
      apply N.bits_above_log2.
      apply N.lt_le_trans with k; [|assumption].
      apply N.log2_lt_pow2; lia. }
  rewrite <- N.lxor_lor, <- N.add_nocarry_lxor by assumption.
  now rewrite N.shiftl_mul_pow2.
Qed.

Lemma land_low_bits (x k : N) : N.land x (N.ones k) = x mod 2 ^ k.
Proof. apply N.land_ones. Qed.

(** A continuation byte holds six bits. *)
Lemma continuation_byte (y : N) :
  y < 64 -> N.lor 128 y = 128 + y /\ N.land (N.lor 128 y) 63 = y.
Proof.
  intros Hy.
  assert (H : N.lor 128 y = 128 + y).
  { change 128 with (N.shiftl 1 7) at 1.
    rewrite lor_shiftl_add by (change (2 ^ 7) with 128; lia).
    reflexivity. }
  split; [exact H|]. rewrite H.
  change 63 with (N.ones 6). rewrite land_low_bits.
  change (2 ^ 6) with 64. change 128 with (2 * 64) .
  rewrite N.add_comm, N.Div0.mod_add. now apply N.mod_small.
Qed.

(** A lead byte: the marker [m * 2^k] and, under it, [k] bits. *)
Lemma lead_byte (m k x : N) :
  x < 2 ^ k ->
  N.lor (m * 2 ^ k) x = m * 2 ^ k + x /\
  N.land (N.lor (m * 2 ^ k) x) (N.ones k) = x.
Proof.
  intros Hx.
  assert (H : N.lor (m * 2 ^ k) x = m * 2 ^ k + x).
  { rewrite <- lor_shiftl_add by assumption. now rewrite N.shiftl_mul_pow2. }
  split; [exact H|]. rewrite H, land_low_bits.
  rewrite N.add_comm, N.Div0.mod_add. now apply N.mod_small.
Qed.

Lemma six_bits (x : N) : N.land x 63 = x mod 64 /\ N.land x 63 < 64.
Proof.
  change 63 with (N.ones 6). rewrite land_low_bits. change (2 ^ 6) with 64.
  split; [reflexivity|]. apply N.mod_lt. discriminate.
Qed.

Lemma shiftr_6 (x : N) : N.shiftr x 6 = x / 64.
Proof. now rewrite N.shiftr_div_pow2. Qed.

Lemma shiftr_12 (x : N) : N.shiftr x 12 = x / 64 / 64.
Proof.
  change 12 with (6 + 6). now rewrite <- N.shiftr_shiftr, !shiftr_6.
Qed.

Lemma shiftr_18 (x : N) : N.shiftr x 18 = x / 64 / 64 / 64.
Proof.
  change 18 with (6 + (6 + 6)).
  now rewrite <- !N.shiftr_shiftr, !shiftr_6.
Qed.

Lemma base64_digits (x : N) : x = 64 * (x / 64) + x mod 64 /\ x mod 64 < 64.
Proof.
  split; [apply N.div_mod; discriminate | apply N.mod_lt; discriminate].
Qed.

(** The decoder on a well-formed sequence of one to four bytes. *)
Lemma utf8_decode_1 (b0 : N) (r : list N) :
  b0 < 128 -> utf8_decode (b0 :: r) = b0 :: utf8_decode r.
Proof.
  intros H. cbn [utf8_decode]. now rewrite (proj2 (N.ltb_lt b0 128) H).
Qed.

Lemma utf8_decode_2 (b0 b1 : N) (r : list N) :
  128 <= b0 -> b0 < 224 ->
  utf8_decode (b0 :: b1 :: r) =
  N.lor (N.shiftl (N.land b0 31) 6) (N.land b1 63) :: utf8_decode r.
Proof.
  intros H1 H2. cbn [utf8_decode].
  rewrite (proj2 (N.ltb_ge b0 128) H1), (proj2 (N.ltb_lt b0 224) H2).
  reflexivity.
Qed.

Lemma utf8_decode_3 (b0 b1 b2 : N) (r : list N) :
  224 <= b0 -> b0 < 240 ->
  utf8_decode (b0 :: b1 :: b2 :: r) =
  N.lor (N.shiftl (N.land b0 15) 12)
        (N.lor (N.shiftl (N.land b1 63) 6) (N.land b2 63))
  :: utf8_decode r.
Proof.
  intros H1 H2. cbn [utf8_decode].
  rewrite (proj2 (N.ltb_ge b0 128)) by lia.
  rewrite (proj2 (N.ltb_ge b0 224) H1), (proj2 (N.ltb_lt b0 240) H2).
  reflexivity.
Qed.

Lemma utf8_decode_4 (b0 b1 b2 b3 : N) (r : list N) :
  240 <= b0 ->
  utf8_decode (b0 :: b1 :: b2 :: b3 :: r) =
  N.lor (N.shiftl (N.land b0 7) 18)
        (N.lor (N.shiftl (N.land b1 63) 12)
               (N.lor (N.shiftl (N.land b2 63) 6) (N.land b3 63)))
  :: utf8_decode r.
Proof.
  intros H1. cbn [utf8_decode].
  rewrite (proj2 (N.ltb_ge b0 128)) by lia.
  rewrite (proj2 (N.ltb_ge b0 224)) by lia.
  rewrite (proj2 (N.ltb_ge b0 240) H1).
  reflexivity.
Qed.

(** One encoded character, followed by anything, decodes to the character
    and the decoding of what follows. *)
Lemma utf8_decode_encode_char (c : N) (bs r : list N) :
  utf8_encode_char c = Some bs -> utf8_decode (bs ++ r) = c :: utf8_decode r.
Proof.
  unfold utf8_encode_char.
  destruct (c <? 128) eqn:H1.
  { intros [= <-]. apply N.ltb_lt in H1. now apply utf8_decode_1. }
  apply N.ltb_ge in H1.
  rewrite !shiftr_6, ?shiftr_12, ?shiftr_18.
  rewrite !(proj1 (six_bits _)).
  destruct (base64_digits c) as [Hdig0 Hlt0].
  destruct (base64_digits (c / 64)) as [Hdig1 Hlt1].
  destruct (base64_digits (c / 64 / 64)) as [Hdig2 Hlt2].
  set (q1 := c / 64) in *. set (d0 := c mod 64) in *.
  set (q2 := q1 / 64) in *. set (d1 := q1 mod 64) in *.
  set (q3 := q2 / 64) in *. set (d2 := q2 mod 64) in *.
  destruct (c <? 2048) eqn:H2.
  { intros [= <-]. apply N.ltb_lt in H2. cbn [app].
    assert (Hq : q1 < 2 ^ 5) by (change (2 ^ 5) with 32; lia).
    destruct (lead_byte 6 5 q1 Hq) as [Hl Hm].
    destruct (continuation_byte d0 ltac:(assumption)) as [Hc Hcm].
    change (6 * 2 ^ 5) with 192 in Hl, Hm. change (N.ones 5) with 31 in Hm.
    rewrite utf8_decode_2 by (rewrite Hl; change (2 ^ 5) with 32 in Hq; lia).
    rewrite Hm, Hcm.
    rewrite lor_shiftl_add by (change (2 ^ 6) with 64; assumption).
    f_equal. change (2 ^ 6) with 64. lia. }
  apply N.ltb_ge in H2.
  destruct (c <? 65536) eqn:H3.
  { apply N.ltb_lt in H3.
    destruct ((55296 <=? c) && (c <=? 57343)); [discriminate|].
    intros [= <-]. cbn [app].
    assert (Hq : q2 < 2 ^ 4) by (change (2 ^ 4) with 16; lia).
    destruct (lead_byte 14 4 q2 Hq) as [Hl Hm].
    destruct (continuation_byte d0 ltac:(assumption)) as [Hc0 Hcm0].
    destruct (continuation_byte d1 ltac:(assumption)) as [Hc1 Hcm1].
    change (14 * 2 ^ 4) with 224 in Hl, Hm. change (N.ones 4) with 15 in Hm.
    rewrite utf8_decode_3
      by (rewrite Hl; change (2 ^ 4) with 16 in Hq; lia).
    rewrite Hm, Hcm0, Hcm1.
    rewrite (lor_shiftl_add d1 d0 6) by (change (2 ^ 6) with 64; assumption).
    rewrite lor_shiftl_add by (change (2 ^ 6) with 64; change (2 ^ 12) with 4096; lia).
    f_equal. change (2 ^ 6) with 64. change (2 ^ 12) with 4096. lia. }
  apply N.ltb_ge in H3.
  destruct (c <? 1114112) eqn:H4; [|discriminate].
  apply N.ltb_lt in H4. intros [= <-]. cbn [app].
  assert (Hq : q3 < 2 ^ 3) by (change (2 ^ 3) with 8; lia).
  destruct (lead_byte 30 3 q3 Hq) as [Hl Hm].
  destruct (continuation_byte d0 ltac:(assumption)) as [Hc0 Hcm0].
  destruct (continuation_byte d1 ltac:(assumption)) as [Hc1 Hcm1].
  destruct (continuation_byte d2 ltac:(assumption)) as [Hc2 Hcm2].
  change (30 * 2 ^ 3) with 240 in Hl, Hm. change (N.ones 3) with 7 in Hm.
  rewrite utf8_decode_4 by (rewrite Hl; lia).
  rewrite Hm, Hcm0, Hcm1, Hcm2.
  rewrite (lor_shiftl_add d1 d0 6) by (change (2 ^ 6) with 64; assumption).
  rewrite (lor_shiftl_add d2 _ 12)
    by (change (2 ^ 6) with 64; change (2 ^ 12) with 4096; lia).
  rewrite lor_shiftl_add
    by (change (2 ^ 6) with 64; change (2 ^ 12) with 4096;
        change (2 ^ 18) with 262144; lia).
  f_equal. change (2 ^ 6) with 64. change (2 ^ 12) with 4096.
  change (2 ^ 18) with 262144. lia.
Qed.

Lemma utf8_decode_encode (s : pystr) (data : list N) :
  utf8_encode s = Some data -> utf8_decode data = s.
Proof.
  revert data. induction s as [|c s IH]; intros data.
  - intros [= <-]. reflexivity.
  - cbn [utf8_encode].
    destruct (utf8_encode_char c) as [bs|] eqn:Hc; [|discriminate].
    destruct (utf8_encode s) as [rest|]; [|discriminate].
    intros [= <-]. rewrite (utf8_decode_encode_char c bs rest Hc).
    now rewrite (IH rest).
Qed.

Lemma utf8_encode_char_accepts (c : N) :
  utf8_encode_char c = None <-> encodable c = false.
Proof.
  unfold utf8_encode_char, encodable.
  destruct (c <? 128) eqn:H1; destruct (c <? 2048) eqn:H2;
    destruct (c <? 65536) eqn:H3; destruct (c <? 1114112) eqn:H4;
    destruct (55296 <=? c) eqn:H5; destruct (c <=? 57343) eqn:H6;
    cbn; split; intros H; try reflexivity; try discriminate;
    exfalso;
    repeat match goal with
           | E : (_ <? _) = true |- _ => apply N.ltb_lt in E
           | E : (_ <? _) = false |- _ => apply N.ltb_ge in E
           | E : (_ <=? _) = true |- _ => apply N.leb_le in E
           | E : (_ <=? _) = false |- _ => apply N.leb_gt in E
           end; lia.
Qed.

Lemma utf8_encode_accepts (s : pystr) :
  utf8_encode s = None <-> forallb encodable s = false.
Proof.
  induction s as [|c s IH]; cbn [utf8_encode forallb].
  - split; discriminate.
  - pose proof (utf8_encode_char_accepts c) as Hc.
    destruct (utf8_encode_char c) as [bs|]; destruct (encodable c);
      cbn [andb].
    + destruct (utf8_encode s); [|tauto].
      split; [discriminate|]. intros H. apply IH in H. discriminate.
    + exfalso. destruct Hc as [_ Hc]. specialize (Hc eq_refl). discriminate.
    + exfalso. destruct Hc as [Hc _]. specialize (Hc eq_refl). discriminate.
    + tauto.
Qed.

(** X1: when the display block runs to its end it has shown, in this
    order, the success message, the subheader, the download button, a rule
    and the story; the button's data is the story in UTF-8, so it decodes
    back to exactly the story shown, and the file name is
    [novel_<name 1>_<name 2>.txt] with the names as they were typed. *)
Theorem download_data_decodes_to_story
    (f : form) (story : pystr) (ws : list widget) :
  show_story f story = (ws, true) ->
  exists data,
    ws = [ st_success (lit "완료! 아래에서 결과를 확인하세요.");
           st_subheader (lit "📝 생성된 소설");
           st_download_button DOWNLOAD_LABEL data
             (lit "novel_" ++ f_protagonist1 f ++ lit "_"
              ++ f_protagonist2 f ++ lit ".txt");
           st_markdown (lit "---");
           st_markdown story ] /\
    utf8_encode story = Some data /\
    utf8_decode data = story.
Proof.
  unfold show_story.
  destruct (utf8_encode story) as [data|] eqn:He; [|discriminate].
  intros [= <-]. exists data.
  split; [reflexivity|]. split; [reflexivity|].
  now apply utf8_decode_encode.
Qed.

Lemma download_data_decodes_to_story_witness :
  let story := lit "THE END. 끝 📖" in
  let ws := fst (show_story blank_name_form story) in
  show_story blank_name_form story = (ws, true) /\
  exists data,
    ws = [ st_success (lit "완료! 아래에서 결과를 확인하세요.");
           st_subheader (lit "📝 생성된 소설");
           st_download_button DOWNLOAD_LABEL data
             (lit "novel_" ++ f_protagonist1 blank_name_form ++ lit "_"
              ++ f_protagonist2 blank_name_form ++ lit ".txt");
           st_markdown (lit "---");
           st_markdown story ] /\
    utf8_encode story = Some data /\
    utf8_decode data = story.
Proof.
  cbv zeta.
  assert (H : show_story blank_name_form (lit "THE END. 끝 📖") =
              (fst (show_story blank_name_form (lit "THE END. 끝 📖")), true))
    by (vm_compute; reflexivity).
  exact (conj H (download_data_decodes_to_story blank_name_form
                   (lit "THE END. 끝 📖") _ H)).
Defined.

(** X2: the display block runs to its end exactly when the strict encoder
    accepts every character of the story, that is, when the story has no
    surrogate code point (a [str] holds no number above U+10FFFF).
    Otherwise [story.encode] raises after the success message and the
    subheader are out: these two are shown, the download button and the
    story are not. *)
Theorem show_story_stops_at_surrogate (f : form) (story : pystr) :
  snd (show_story f story) = forallb encodable story /\
  (forallb encodable story = false ->
   fst (show_story f story) =
   [ st_success (lit "완료! 아래에서 결과를 확인하세요.");
     st_subheader (lit "📝 생성된 소설") ]).
Proof.
  unfold show_story. pose proof (utf8_encode_accepts story) as Ha.
  destruct (utf8_encode story) as [data|]; cbn [fst snd].
  - destruct (forallb encodable story); [split; [reflexivity | discriminate]|].
    destruct Ha as [_ Ha]. specialize (Ha eq_refl). discriminate.
  - destruct Ha as [Ha _]. rewrite (Ha eq_refl). split; reflexivity.
Qed.

Lemma show_story_stops_at_surrogate_witness :
  let story := lit "THE " ++ [55357] ++ lit "END." in
  forallb encodable story = false /\
  snd (show_story example_form story) = forallb encodable story /\
  fst (show_story example_form story) =
  [ st_success (lit "완료! 아래에서 결과를 확인하세요.");
    st_subheader (lit "📝 생성된 소설") ].
Proof.
  cbv zeta.
  assert (H : forallb encodable (lit "THE " ++ [55357] ++ lit "END.") = false)
    by (vm_compute; reflexivity).
  destruct (show_story_stops_at_surrogate example_form
              (lit "THE " ++ [55357] ++ lit "END.")) as [Hs Hf].
  exact (conj H (conj Hs (Hf H))).
Defined.

(* ===================================================================== *)
(** ** One submission, step by step *)
(* ===================================================================== *)

Section Submission.

Variable backend : list event -> api_call -> api_result.

Lemma fields_filled_empty (f : form) :
  fields_filled f = false <->
  f_protagonist1 f = [] \/ f_protagonist2 f = [] \/ f_premise f = [].
Proof.
  unfold fields_filled.
  destruct (f_protagonist1 f), (f_protagonist2 f), (f_premise f); cbn;
    intuition congruence.
Qed.

(** The handler stops at the validation when a text is empty. *)
Lemma cta_handler_invalid (f : form) (w : world) (k : pystr) :
  fst (_get_api_key w) = Ok (Some k) -> k <> [] ->
  fields_filled f = false ->
  cta_handler backend f w =
  (Raise StopException,
   log (CallSt (st_warning VALIDATION_MESSAGE))
       (log (CallGetApiKey (Some k)) w)).
Proof.
  intros Hk Hne Hf. unfold _get_api_key in Hk. cbn in Hk. injection Hk as Hk.
  unfold cta_handler, bind, _get_api_key. rewrite Hk.
  destruct k as [|c0 k]; [congruence|]. cbn [truthy negb]. unfold ret.
  cbv beta iota.
  unfold fields_filled in Hf. apply negb_false_iff in Hf. rewrite Hf.
  unfold st, emit, st_stop, raise, VALIDATION_MESSAGE. reflexivity.
Qed.

(** Past the guard and the validation, the handler is the generation step
    and the handling of its outcome. *)
Lemma cta_handler_valid (f : form) (w : world) (k : pystr) :
  fst (_get_api_key w) = Ok (Some k) -> k <> [] ->
  fields_filled f = true ->
  let c := {| via := endpoint_for w k; params := form_request f |} in
  let w2 := log (CallGetApiKey (Some k))
              (log (CallSt (st_spinner SPINNER_TEXT))
                 (log (CallGetApiKey (Some k)) w)) in
  let w3 := log (CallCreate c)
              (if bool_decide (_SDK_STYLE w = lit "new") then w2
               else set_openai_api_key (Some k) w2) in
  cta_handler backend f w =
  match backend (trace w2) c with
  | ApiReturn resp =>
    match fst (first_content_stripped resp w3) with
    | Ok s => (Ok s, w3)
    | Raise e =>
      (Raise StopException,
       log (CallSt (st_error (lit "OpenAI API error: " ++ str_exn e))) w3)
    end
  | ApiRaise cls msg =>
    (Raise StopException,
     log (CallSt (st_error (lit "OpenAI API error: " ++ msg))) w3)
  end.
Proof.
  intros Hk Hne Hf. cbv zeta. unfold SPINNER_TEXT.
  pose proof Hk as Hk0. unfold _get_api_key in Hk0. cbn in Hk0.
  injection Hk0 as Hk0.
  unfold cta_handler, bind, _get_api_key. rewrite Hk0.
  destruct k as [|c0 k]; [congruence|]. cbn [truthy negb]. unfold ret.
  cbv beta iota.
  unfold fields_filled in Hf. apply negb_true_iff in Hf. rewrite Hf.
  unfold st at 1. unfold emit. cbv beta iota.
  match goal with
  | |- try_except_Exception _ _ ?w0 = _ => set (wsp := w0)
  end.
  assert (Hk2 : fst (_get_api_key wsp) = Ok (Some (c0 :: k))).
  { unfold _get_api_key in *. cbn in *. exact Hk. }
  unfold try_except_Exception.
  rewrite (generate_novel_unfold backend _ _ _ _ _ _ _ _ wsp (c0 :: k) Hk2 Hne).
  cbv zeta.
  change (endpoint_for wsp (c0 :: k)) with (endpoint_for w (c0 :: k)).
  change (_SDK_STYLE wsp) with (_SDK_STYLE w).
  fold (form_request f). subst wsp.
  destruct (backend _ _) as [resp|cls msg].
  - match goal with
    | |- context [first_content_stripped resp ?w0] =>
      pose proof (first_content_stripped_world resp w0) as Hw;
      destruct (first_content_stripped resp w0) as [[s|e] w4]
    end; cbn [fst snd] in Hw |- *; subst w4; [reflexivity|].
    unfold RuntimeError, is_Exception, st, emit, st_stop, raise, str_exn.
    reflexivity.
  - unfold RuntimeError, is_Exception, st, emit, st_stop, raise, str_exn.
    reflexivity.
Qed.

(** The [create] calls of one run of the handler. *)
Lemma cta_handler_creates (f : form) (w : world) :
  creates (trace (snd (cta_handler backend f w))) =
  creates (trace w) ++ submission_calls f w.
Proof.
  destruct (_get_api_key_world w) as [r Hr].
  assert (Hk : fst (_get_api_key w) = Ok r) by now rewrite Hr.
  unfold submission_calls. rewrite (current_key_eq w r Hk).
  destruct r as [[|c0 k]|].
  - rewrite (cta_handler_no_key backend f w (Some []) Hk eq_refl).
    cbn [snd trace log]. rewrite <- app_assoc, creates_app. reflexivity.
  - assert (Hne : c0 :: k <> []) by discriminate.
    destruct (fields_filled f) eqn:Hf.
    + rewrite (cta_handler_valid f w (c0 :: k) Hk Hne Hf). cbv zeta.
      destruct (backend _ _) as [resp|cls msg];
        [destruct (fst (first_content_stripped resp _))|];
        cbn [snd trace log]; destruct (bool_decide (_SDK_STYLE w = lit "new"));
        cbn [trace log set_openai_api_key];
        rewrite <- ?app_assoc, creates_app; reflexivity.
    + rewrite (cta_handler_invalid f w (c0 :: k) Hk Hne Hf).
      cbn [snd trace log]. rewrite <- app_assoc, creates_app. reflexivity.
  - rewrite (cta_handler_no_key backend f w None Hk eq_refl).
    cbn [snd trace log]. rewrite <- app_assoc, creates_app. reflexivity.
Qed.

Lemma submission_calls_length (f : form) (w : world) :
  (length (submission_calls f w) <= 1)%nat.
Proof.
  unfold submission_calls.
  destruct (current_key w) as [[|c k]|]; [cbn; lia | | cbn; lia].
  destruct (fields_filled f); cbn; lia.
Qed.

(** X3: a submission that passes the guard and the validation and whose
    call is answered with content [c] returns [c.strip()].  Its events
    are, in this order: the key lookup of the guard, the spinner, the key
    lookup of [_get_client], and one [create] call with the request of the
    form (names stripped, the other fields as given). *)
Theorem submission_returns_story
    (f : form) (w : world) (k : pystr) (resp : chat_response)
    (ch : choice) (chs : list choice) (c : pystr) :
  fst (_get_api_key w) = Ok (Some k) -> k <> [] ->
  fields_filled f = true ->
  (forall h ep, backend h {| via := ep; params := form_request f |}
                = ApiReturn resp) ->
  choices resp = ch :: chs -> message_content ch = Some c ->
  fst (cta_handler backend f w) = Ok (strip c) /\
  trace (snd (cta_handler backend f w)) =
  trace w ++ [ CallGetApiKey (Some k);
               CallSt (st_spinner SPINNER_TEXT);
               CallGetApiKey (Some k);
               CallCreate {| via := endpoint_for w k;
                             params := form_request f |} ].
Proof.
  intros Hk Hne Hf Hb Hch Hc.
  rewrite (cta_handler_valid f w k Hk Hne Hf). cbv zeta. rewrite Hb.
  unfold first_content_stripped at 1 2. rewrite Hch, Hc.
  cbn [fst snd ret]. split; [reflexivity|].
  destruct (bool_decide (_SDK_STYLE w = lit "new"));
    cbn [trace log set_openai_api_key]; now rewrite <- !app_assoc.
Qed.

(** X4: when the call of a submission raises, the handler shows
    [OpenAI API error: ] followed by the original text with [st.error]
    and stops the script; it has made that one call and no other. *)
Theorem submission_error_is_shown
    (f : form) (w : world) (k : pystr) (cls : string) (msg : pystr) :
  fst (_get_api_key w) = Ok (Some k) -> k <> [] ->
  fields_filled f = true ->
  (forall h ep, backend h {| via := ep; params := form_request f |}
                = ApiRaise cls msg) ->
  fst (cta_handler backend f w) = Raise StopException /\
  trace (snd (cta_handler backend f w)) =
  trace w ++ [ CallGetApiKey (Some k);
               CallSt (st_spinner SPINNER_TEXT);
               CallGetApiKey (Some k);
               CallCreate {| via := endpoint_for w k;
                             params := form_request f |};
               CallSt (st_error (lit "OpenAI API error: " ++ msg)) ].
Proof.
  intros Hk Hne Hf Hb.
  rewrite (cta_handler_valid f w k Hk Hne Hf). cbv zeta. rewrite Hb.
  cbn [fst snd]. split; [reflexivity|].
  destruct (bool_decide (_SDK_STYLE w = lit "new"));
    cbn [trace log set_openai_api_key]; now rewrite <- !app_assoc.
Qed.

(** X5: with a key in place, a submission in which a name or the premise
    is the empty string shows the validation warning and stops: the key is
    looked up once and no call is made. *)
Theorem submission_with_empty_text_stops
    (f : form) (w : world) (k : pystr) :
  fst (_get_api_key w) = Ok (Some k) -> k <> [] ->
  f_protagonist1 f = [] \/ f_protagonist2 f = [] \/ f_premise f = [] ->
  fst (cta_handler backend f w) = Raise StopException /\
  trace (snd (cta_handler backend f w)) =
  trace w ++ [ CallGetApiKey (Some k);
               CallSt (st_warning VALIDATION_MESSAGE) ] /\
  creates (trace (snd (cta_handler backend f w))) = creates (trace w).
Proof.
  intros Hk Hne He. apply fields_filled_empty in He.
  rewrite (cta_handler_invalid f w k Hk Hne He). cbn [fst snd trace log].
  rewrite <- app_assoc. split; [reflexivity|]. split; [reflexivity|].
  rewrite creates_app. cbn. now rewrite app_nil_r.
Qed.

(** X6: the validation looks at the names before they are stripped.  A
    first name made of whitespace only passes it, and the request is then
    sent with an empty first name. *)
Theorem blank_name_passes_validation
    (f : form) (w : world) (k : pystr) :
  fst (_get_api_key w) = Ok (Some k) -> k <> [] ->
  f_protagonist1 f <> [] -> strip (f_protagonist1 f) = [] ->
  f_protagonist2 f <> [] -> f_premise f <> [] ->
  creates (trace (snd (cta_handler backend f w))) =
  creates (trace w) ++
  [ {| via := endpoint_for w k;
       params := spec_chat_request [] (strip (f_protagonist2 f)) (f_genre f)
                   (f_premise f) (f_default_lang f) (f_target_words f)
                   (f_temperature f) (f_model f) |} ].
Proof.
  intros Hk Hne H1 Hblank H2 H3.
  rewrite cta_handler_creates. unfold submission_calls.
  rewrite (current_key_eq w (Some k) Hk).
  destruct k as [|c0 k]; [congruence|].
  assert (Hf : fields_filled f = true).
  { destruct (fields_filled f) eqn:E; [reflexivity|].
    apply fields_filled_empty in E. tauto. }
  rewrite Hf. unfold form_request. now rewrite Hblank.
Qed.

(** X7: an empty string in the secrets store hides the environment.
    [_get_api_key] returns the empty secret without looking at
    [os.environ], so the handler reports a missing key and stops, and
    [generate_novel] stops as well, whatever key the environment has. *)
Theorem empty_secret_hides_environment
    (protagonist1 protagonist2 genre premise language : pystr)
    (target_words : Z) (temp : float) (model_id : pystr)
    (f : form) (w : world) :
  secrets w !! OPENAI_API_KEY = Some [] ->
  fst (_get_api_key w) = Ok (Some []) /\
  fst (cta_handler backend f w) = Raise StopException /\
  trace (snd (cta_handler backend f w)) =
  trace w ++ [ CallGetApiKey (Some []);
               CallSt (st_error MISSING_KEY_MESSAGE) ] /\
  generate_novel backend protagonist1 protagonist2 genre premise language
    target_words temp model_id w
  = (Raise StopException, log (CallGetApiKey (Some [])) w).
Proof.
  intros Hs.
  assert (Hk : fst (_get_api_key w) = Ok (Some [])).
  { unfold _get_api_key. cbn. now rewrite Hs. }
  split; [exact Hk|].
  rewrite (cta_handler_no_key backend f w (Some []) Hk eq_refl).
  rewrite (generate_novel_no_key backend _ _ _ _ _ _ _ _ w (Some []) Hk eq_refl).
  cbn [fst snd trace log]. rewrite <- app_assoc. auto.
Qed.

(** X8: the handler lets no exception out but Streamlit's stop, and it
    never stops in silence: it returns a story, or it raises
    [StopException] right after a message shown with [st.error] or
    [st.warning]. *)
Theorem submission_ends_with_story_or_message (f : form) (w : world) :
  (exists s, fst (cta_handler backend f w) = Ok s) \/
  (fst (cta_handler backend f w) = Raise StopException /\
   exists t body,
     trace (snd (cta_handler backend f w)) = t ++ [CallSt (st_error body)] \/
     trace (snd (cta_handler backend f w)) = t ++ [CallSt (st_warning body)]).
Proof.
  destruct (_get_api_key_world w) as [r Hr].
  assert (Hk : fst (_get_api_key w) = Ok r) by now rewrite Hr.
  destruct (truthy r) eqn:Ht.
  - destruct r as [[|c0 k]|]; try discriminate.
    assert (Hne : c0 :: k <> []) by discriminate.
    destruct (fields_filled f) eqn:Hf.
    + rewrite (cta_handler_valid f w (c0 :: k) Hk Hne Hf). cbv zeta.
      destruct (backend _ _) as [resp|cls msg];
        [destruct (fst (first_content_stripped resp _)) as [s|e]|];
        cbn [fst snd trace log]; eauto 8.
    + rewrite (cta_handler_invalid f w (c0 :: k) Hk Hne Hf).
      cbn [fst snd trace log]. eauto 8.
  - rewrite (cta_handler_no_key backend f w r Hk Ht).
    cbn [fst snd trace log]. eauto 8.
Qed.

(** X9: one run of the script makes at most one [create] call: exactly
    one, with the request of the form, when the button was pressed, a
    non-empty key is found and the three texts are filled in, and none
    otherwise. *)
Theorem script_run_calls (f : form) (w : world) :
  creates (trace (script_run backend f w)) =
  creates (trace w) ++ (if cta f then submission_calls f w else []) /\
  (length (if cta f then submission_calls f w else []) <= 1)%nat.
Proof.
  unfold script_run. destruct (cta f).
  - split; [apply cta_handler_creates | apply submission_calls_length].
  - split; [now rewrite app_nil_r | cbn; lia].
Qed.

(** X10: a session never makes more [create] calls than there were
    presses of the button. *)
Theorem session_calls_bounded (fs : list form) (w : world) :
  (length (creates (trace (session backend fs w)))
   <= length (creates (trace w)) + length (List.filter cta fs))%nat.
Proof.
  revert w. induction fs as [|f fs IH]; intros w; cbn [session List.filter].
  - lia.
  - specialize (IH (script_run backend f w)).
    assert (Hrun : (length (creates (trace (script_run backend f w)))
                    <= length (creates (trace w))
                       + (if cta f then 1 else 0))%nat).
    { unfold script_run. destruct (cta f); [|lia].
      rewrite cta_handler_creates, length_app.
      pose proof (submission_calls_length f w). lia. }
    destruct (cta f); cbn [length]; lia.
Qed.

(** The world after a run of [generate_novel] that found a key. *)
Lemma generate_novel_world
    (protagonist1 protagonist2 genre premise language : pystr)
    (target_words : Z) (temp : float) (model_id : pystr)
    (w : world) (k : pystr) :
  fst (_get_api_key w) = Ok (Some k) -> k <> [] ->
  snd (generate_novel backend protagonist1 protagonist2 genre premise
         language target_words temp model_id w) =
  log (CallCreate
         {| via := endpoint_for w k;
            params := spec_chat_request protagonist1 protagonist2 genre
                        premise language target_words temp model_id |})
      (if bool_decide (_SDK_STYLE w = lit "new")
       then log (CallGetApiKey (Some k)) w
       else set_openai_api_key (Some k) (log (CallGetApiKey (Some k)) w)).
Proof.
  intros Hk Hne.
  rewrite (generate_novel_unfold backend _ _ _ _ _ _ _ _ w k Hk Hne).
  cbv zeta. destruct (backend _ _) as [resp|cls msg]; [|reflexivity].
  match goal with
  | |- context [first_content_stripped resp ?w0] =>
    pose proof (first_content_stripped_world resp w0) as Hw;
    destruct (first_content_stripped resp w0) as [[s|e] w4]
  end; cbn [snd] in Hw |- *; now subst w4.
Qed.

(** X11: [openai.api_key] is written by the legacy path only.  Under the
    new SDK a run of [generate_novel] leaves it as it was; under the
    legacy SDK a run that finds a key sets it to that key before the call,
    so the call is made with the key just resolved and not with what the
    attribute held before. *)
Theorem module_api_key_written_by_legacy_path_only
    (protagonist1 protagonist2 genre premise language : pystr)
    (target_words : Z) (temp : float) (model_id : pystr) (w : world) :
  let w' := snd (generate_novel backend protagonist1 protagonist2 genre
                   premise language target_words temp model_id w) in
  (_SDK_STYLE w = lit "new" -> openai_api_key w' = openai_api_key w) /\
  (forall k, _SDK_STYLE w <> lit "new" ->
             fst (_get_api_key w) = Ok (Some k) -> k <> [] ->
             openai_api_key w' = Some k /\
             creates (trace w') =
             creates (trace w) ++
             [ {| via := openai_ChatCompletion_create (Some k);
                  params := spec_chat_request protagonist1 protagonist2
                              genre premise language target_words temp
                              model_id |} ]).
Proof.
  cbv zeta. split.
  - intros Hs.
    destruct (_get_api_key_world w) as [r Hr].
    assert (Hk : fst (_get_api_key w) = Ok r) by now rewrite Hr.
    destruct (truthy r) eqn:Ht.
    + destruct r as [[|c0 k]|]; try discriminate.
      rewrite (generate_novel_world _ _ _ _ _ _ _ _ w (c0 :: k) Hk)
        by discriminate.
      now rewrite (bool_decide_eq_true_2 _ Hs).
    + now rewrite (generate_novel_no_key backend _ _ _ _ _ _ _ _ w r Hk Ht).
  - intros k Hs Hk Hne.
    rewrite (generate_novel_world _ _ _ _ _ _ _ _ w k Hk Hne).
    unfold endpoint_for. rewrite (bool_decide_eq_false_2 _ Hs).
    cbn [openai_api_key trace log set_openai_api_key].
    split; [reflexivity|].
    rewrite <- app_assoc, creates_app. reflexivity.
Qed.

(** X12: a story [generate_novel] returns is the stripped content of an
    answer: it is empty or has no whitespace at either end. *)
Theorem returned_story_is_stripped
    (protagonist1 protagonist2 genre premise language : pystr)
    (target_words : Z) (temp : float) (model_id : pystr)
    (w : world) (story : pystr) :
  fst (generate_novel backend protagonist1 protagonist2 genre premise
         language target_words temp model_id w) = Ok story ->
  (exists c, story = strip c) /\
  (story = [] \/
   (starts_nonspace story = true /\ starts_nonspace (rev story) = true)).
Proof.
  intros Hrun.
  assert (Hex : exists c, story = strip c).
  { destruct (_get_api_key_world w) as [r Hr].
    assert (Hk : fst (_get_api_key w) = Ok r) by now rewrite Hr.
    destruct (truthy r) eqn:Ht.
    - destruct r as [[|c0 k]|]; try discriminate.
      rewrite (generate_novel_unfold backend _ _ _ _ _ _ _ _ w (c0 :: k) Hk)
        in Hrun by discriminate.
      cbv zeta in Hrun.
      destruct (backend _ _) as [resp|cls msg]; [|discriminate].
      unfold first_content_stripped in Hrun.
      destruct (choices resp) as [|ch chs]; [discriminate|].
      destruct (message_content ch) as [c|]; [|discriminate].
      cbn in Hrun. injection Hrun as <-. eauto.
    - rewrite (generate_novel_no_key backend _ _ _ _ _ _ _ _ w r Hk Ht) in Hrun.
      discriminate. }
  split; [exact Hex|]. destruct Hex as (c & ->). apply strip_ends.
Qed.

End Submission.

Lemma submission_returns_story_witness :
  let w := keyed_world (lit "new") in
  let k := lit "sk-secret" in
  fst (_get_api_key w) = Ok (Some k) /\ k <> [] /\
  fields_filled example_form = true /\
  (forall h ep,
      echo_backend h {| via := ep; params := form_request example_form |}
      = ApiReturn the_end) /\
  choices the_end = [ {| message_content := Some (lit "  THE END. ") |} ] /\
  (fst (cta_handler echo_backend example_form w)
   = Ok (strip (lit "  THE END. ")) /\
   trace (snd (cta_handler echo_backend example_form w)) =
   trace w ++ [ CallGetApiKey (Some k);
                CallSt (st_spinner SPINNER_TEXT);
                CallGetApiKey (Some k);
                CallCreate {| via := endpoint_for w k;
                              params := form_request example_form |} ]).
Proof.
  cbv zeta.
  assert (Hk : fst (_get_api_key (keyed_world (lit "new")))
               = Ok (Some (lit "sk-secret"))) by (vm_compute; reflexivity).
  assert (Hne : lit "sk-secret" <> []) by (vm_compute; discriminate).
  assert (Hf : fields_filled example_form = true)
    by (vm_compute; reflexivity).
  assert (Hb : forall h ep,
             echo_backend h
               {| via := ep; params := form_request example_form |}
             = ApiReturn the_end) by reflexivity.
  exact (conj Hk (conj Hne (conj Hf (conj Hb (conj eq_refl
           (submission_returns_story echo_backend example_form
              (keyed_world (lit "new")) (lit "sk-secret") the_end
              {| message_content := Some (lit "  THE END. ") |} []
              (lit "  THE END. ") Hk Hne Hf Hb eq_refl eq_refl)))))).
Defined.

Lemma submission_error_is_shown_witness :
  let w := keyed_world (lit "legacy") in
  let k := lit "sk-secret" in
  let msg := lit "Connection error." in
  fst (_get_api_key w) = Ok (Some k) /\ k <> [] /\
  fields_filled example_form = true /\
  (forall h ep,
      failing_backend h {| via := ep; params := form_request example_form |}
      = ApiRaise "APIConnectionError" msg) /\
  (fst (cta_handler failing_backend example_form w) = Raise StopException /\
   trace (snd (cta_handler failing_backend example_form w)) =
   trace w ++ [ CallGetApiKey (Some k);
                CallSt (st_spinner SPINNER_TEXT);
                CallGetApiKey (Some k);
                CallCreate {| via := endpoint_for w k;
                              params := form_request example_form |};
                CallSt (st_error (lit "OpenAI API error: " ++ msg)) ]).
Proof.
  cbv zeta.
  assert (Hk : fst (_get_api_key (keyed_world (lit "legacy")))
               = Ok (Some (lit "sk-secret"))) by (vm_compute; reflexivity).
  assert (Hne : lit "sk-secret" <> []) by (vm_compute; discriminate).
  assert (Hf : fields_filled example_form = true)
    by (vm_compute; reflexivity).
  assert (Hb : forall h ep,
             failing_backend h
               {| via := ep; params := form_request example_form |}
             = ApiRaise "APIConnectionError" (lit "Connection error."))
    by reflexivity.
  exact (conj Hk (conj Hne (conj Hf (conj Hb
           (submission_error_is_shown failing_backend example_form
              (keyed_world (lit "legacy")) (lit "sk-secret")
              "APIConnectionError" (lit "Connection error.")
              Hk Hne Hf Hb))))).
Defined.

Lemma submission_with_empty_text_stops_witness :
  let w := keyed_world (lit "new") in
  let k := lit "sk-secret" in
  fst (_get_api_key w) = Ok (Some k) /\ k <> [] /\
  (f_protagonist1 no_premise_form = [] \/
   f_protagonist2 no_premise_form = [] \/ f_premise no_premise_form = []) /\
  (fst (cta_handler echo_backend no_premise_form w) = Raise StopException /\
   trace (snd (cta_handler echo_backend no_premise_form w)) =
   trace w ++ [ CallGetApiKey (Some k);
                CallSt (st_warning VALIDATION_MESSAGE) ] /\
   creates (trace (snd (cta_handler echo_backend no_premise_form w)))
   = creates (trace w)).
Proof.
  cbv zeta.
  assert (Hk : fst (_get_api_key (keyed_world (lit "new")))
               = Ok (Some (lit "sk-secret"))) by (vm_compute; reflexivity).
  assert (Hne : lit "sk-secret" <> []) by (vm_compute; discriminate).
  assert (He : f_protagonist1 no_premise_form = [] \/
               f_protagonist2 no_premise_form = [] \/
               f_premise no_premise_form = [])
    by (right; right; reflexivity).
  exact (conj Hk (conj Hne (conj He
           (submission_with_empty_text_stops echo_backend no_premise_form
              (keyed_world (lit "new")) (lit "sk-secret") Hk Hne He)))).
Defined.

Lemma blank_name_passes_validation_witness :
  let w := keyed_world (lit "new") in
  let k := lit "sk-secret" in
  let f := blank_name_form in
  fst (_get_api_key w) = Ok (Some k) /\ k <> [] /\
  f_protagonist1 f <> [] /\ strip (f_protagonist1 f) = [] /\
  f_protagonist2 f <> [] /\ f_premise f <> [] /\
  creates (trace (snd (cta_handler echo_backend f w))) =
  creates (trace w) ++
  [ {| via := endpoint_for w k;
       params := spec_chat_request [] (strip (f_protagonist2 f)) (f_genre f)
                   (f_premise f) (f_default_lang f) (f_target_words f)
                   (f_temperature f) (f_model f) |} ].
Proof.
  cbv zeta.
  assert (Hk : fst (_get_api_key (keyed_world (lit "new")))
               = Ok (Some (lit "sk-secret"))) by (vm_compute; reflexivity).
  assert (Hne : lit "sk-secret" <> []) by (vm_compute; discriminate).
  assert (H1 : f_protagonist1 blank_name_form <> [])
    by (vm_compute; discriminate).
  assert (Hblank : strip (f_protagonist1 blank_name_form) = [])
    by (vm_compute; reflexivity).
  assert (H2 : f_protagonist2 blank_name_form <> [])
    by (vm_compute; discriminate).
  assert (H3 : f_premise blank_name_form <> [])
    by (vm_compute; discriminate).
  exact (conj Hk (conj Hne (conj H1 (conj Hblank (conj H2 (conj H3
           (blank_name_passes_validation echo_backend blank_name_form
              (keyed_world (lit "new")) (lit "sk-secret")
              Hk Hne H1 Hblank H2 H3))))))).
Defined.

Lemma empty_secret_hides_environment_witness :
  let w := empty_secret_world in
  secrets w !! OPENAI_API_KEY = Some [] /\
  environ w !! OPENAI_API_KEY = Some (lit "sk-env") /\
  (fst (_get_api_key w) = Ok (Some []) /\
   fst (cta_handler echo_backend example_form w) = Raise StopException /\
   trace (snd (cta_handler echo_backend example_form w)) =
   trace w ++ [ CallGetApiKey (Some []);
                CallSt (st_error MISSING_KEY_MESSAGE) ] /\
   generate echo_backend example_request w
   = (Raise StopException, log (CallGetApiKey (Some [])) w)).
Proof.
  cbv zeta.
  assert (Hs : secrets empty_secret_world !! OPENAI_API_KEY = Some [])
    by (vm_compute; reflexivity).
  assert (He : environ empty_secret_world !! OPENAI_API_KEY
               = Some (lit "sk-env")) by (vm_compute; reflexivity).
  exact (conj Hs (conj He
           (empty_secret_hides_environment echo_backend
              (sr_protagonist1 example_request)
              (sr_protagonist2 example_request) (sr_genre example_request)
              (sr_premise example_request) (sr_language example_request)
              (sr_target_words example_request)
              (sr_temperature example_request) (sr_model example_request)
              example_form empty_secret_world Hs))).
Defined.

Lemma module_api_key_written_by_legacy_path_only_witness :
  let w := stale_key_world in
  let k := lit "sk-secret" in
  let w' := snd (generate echo_backend example_request w) in
  openai_api_key w = Some (lit "sk-old") /\
  _SDK_STYLE w <> lit "new" /\
  fst (_get_api_key w) = Ok (Some k) /\ k <> [] /\
  openai_api_key w' = Some k /\
  creates (trace w') =
  creates (trace w) ++
  [ {| via := openai_ChatCompletion_create (Some k);
       params := request_params example_request |} ].
Proof.
  cbv zeta.
  assert (Ho : openai_api_key stale_key_world = Some (lit "sk-old"))
    by reflexivity.
  assert (Hs : _SDK_STYLE stale_key_world <> lit "new")
    by (vm_compute; discriminate).
  assert (Hk : fst (_get_api_key stale_key_world)
               = Ok (Some (lit "sk-secret"))) by (vm_compute; reflexivity).
  assert (Hne : lit "sk-secret" <> []) by (vm_compute; discriminate).
  exact (conj Ho (conj Hs (conj Hk (conj Hne
           (proj2 (module_api_key_written_by_legacy_path_only echo_backend
                     (sr_protagonist1 example_request)
                     (sr_protagonist2 example_request)
                     (sr_genre example_request)
                     (sr_premise example_request)
                     (sr_language example_request)
                     (sr_target_words example_request)
                     (sr_temperature example_request)
                     (sr_model example_request) stale_key_world)
                  (lit "sk-secret") Hs Hk Hne))))).
Defined.

Lemma returned_story_is_stripped_witness :
  let w := keyed_world (lit "new") in
  let story := lit "THE END." in
  fst (generate echo_backend example_request w) = Ok story /\
  ((exists c, story = strip c) /\
   (story = [] \/
    (starts_nonspace story = true /\ starts_nonspace (rev story) = true))).
Proof.
  cbv zeta.
  assert (Hrun : fst (generate echo_backend example_request
                        (keyed_world (lit "new"))) = Ok (lit "THE END."))
    by (vm_compute; reflexivity).
  exact (conj Hrun
           (returned_story_is_stripped echo_backend
              (sr_protagonist1 example_request)
              (sr_protagonist2 example_request) (sr_genre example_request)
              (sr_premise example_request) (sr_language example_request)
              (sr_target_words example_request)
              (sr_temperature example_request) (sr_model example_request)
              (keyed_world (lit "new")) (lit "THE END.") Hrun)).
Defined.

(* ===================================================================== *)
(** ** More on the prompt *)
(* ===================================================================== *)

Lemma strip_idempotent (s : pystr) : strip (strip s) = strip s.
Proof.
  destruct (strip_ends s) as [-> | [Hs He]]; [reflexivity|].
  rewrite <- (app_nil_r (strip s)) at 1.
  apply (strip_padded [] (strip s) []); auto.
Qed.

(** X13: whitespace around the premise does not reach the service: a run
    of [generate_novel] with a premise is the run with the stripped
    premise, result and events alike. *)
Theorem premise_whitespace_is_dropped
    (backend : list event -> api_call -> api_result)
    (protagonist1 protagonist2 genre premise language : pystr)
    (target_words : Z) (temp : float) (model_id : pystr) (w : world) :
  style_guide protagonist1 protagonist2 genre premise language target_words
  = style_guide protagonist1 protagonist2 genre (strip premise) language
      target_words /\
  generate_novel backend protagonist1 protagonist2 genre premise language
    target_words temp model_id w
  = generate_novel backend protagonist1 protagonist2 genre (strip premise)
      language target_words temp model_id w.
Proof.
  assert (H : style_guide protagonist1 protagonist2 genre premise language
                target_words
              = style_guide protagonist1 protagonist2 genre (strip premise)
                  language target_words).
  { unfold style_guide. now rewrite strip_idempotent. }
  split; [exact H|]. unfold generate_novel. now rewrite H.
Qed.

Lemma one_line_iff (P : pystr) :
  tl (split_nl P) = [] <-> single_line P = true.
Proof.
  split.
  - intros Ht. pose proof (join_split P) as Hj.
    pose proof (split_nl_lines P) as Hl.
    destruct (split_nl P) as [|l ls]; [now subst P|].
    cbn [tl] in Ht. subst ls. cbn [join_nl] in Hj. subst l.
    now inversion Hl.
  - intros Hs. now rewrite (split_nl_single P Hs).
Qed.

(** X14: the exact prompt.  For names, genre and language without a line
    break and a premise that is one line once stripped, the prompt is the
    template without its indentation, ending in the stripped premise.  For
    a premise of several lines that [dedent] leaves alone, [dedent]
    removes nothing: the prompt is the template with every line after the
    first still indented by eight spaces, the first line of the premise
    included, and the other lines of the premise as they were typed. *)
Theorem prompt_exact
    (protagonist1 protagonist2 genre premise language : pystr)
    (target_words : Z) :
  single_line language = true -> single_line genre = true ->
  single_line protagonist1 = true -> single_line protagonist2 = true ->
  strip premise <> [] -> dedent_keeps (strip premise) = true ->
  style_guide protagonist1 protagonist2 genre premise language target_words =
  join_nl
    (first_line language
     :: map (indent_line (if single_line (strip premise) then [] else INDENT))
            (rest_lines protagonist1 protagonist2 genre target_words)
     ++ [(if single_line (strip premise) then [] else INDENT)
         ++ strip premise]).
Proof.
  intros Hl Hg H1 H2 HP Hkeep.
  rewrite (style_guide_layout _ _ _ _ _ _ Hl Hg H1 H2 HP Hkeep).
  unfold layout, kept_indent.
  pose proof (one_line_iff (strip premise)) as Hone.
  destruct (tl (split_nl (strip premise))) as [|l ls].
  - now rewrite (proj1 Hone eq_refl).
  - destruct (single_line (strip premise)); [|reflexivity].
    destruct Hone as [_ Hone]. specialize (Hone eq_refl). discriminate.
Qed.

Lemma prompt_exact_witness :
  let premise := lit "  An old shop." ++ [NL] ++ lit "It rains. " in
  single_line (lit "English") = true /\ single_line (lit "SF") = true /\
  single_line (lit "Ann") = true /\ single_line (lit "Bob") = true /\
  strip premise <> [] /\ dedent_keeps (strip premise) = true /\
  single_line (strip premise) = false /\
  style_guide (lit "Ann") (lit "Bob") (lit "SF") premise (lit "English") 400 =
  join_nl
    (first_line (lit "English")
     :: map (indent_line (if single_line (strip premise) then [] else INDENT))
            (rest_lines (lit "Ann") (lit "Bob") (lit "SF") 400)
     ++ [(if single_line (strip premise) then [] else INDENT)
         ++ strip premise]).
Proof.
  cbv zeta.
  assert (Hl : single_line (lit "English") = true)
    by (vm_compute; reflexivity).
  assert (Hg : single_line (lit "SF") = true) by (vm_compute; reflexivity).
  assert (H1 : single_line (lit "Ann") = true) by (vm_compute; reflexivity).
  assert (H2 : single_line (lit "Bob") = true) by (vm_compute; reflexivity).
  assert (HP : strip (lit "  An old shop." ++ [NL] ++ lit "It rains. ") <> [])
    by (vm_compute; discriminate).
  assert (Hkeep : dedent_keeps
                    (strip (lit "  An old shop." ++ [NL] ++ lit "It rains. "))
                  = true) by (vm_compute; reflexivity).
  assert (Hm : single_line
                 (strip (lit "  An old shop." ++ [NL] ++ lit "It rains. "))
               = false) by (vm_compute; reflexivity).
  exact (conj Hl (conj Hg (conj H1 (conj H2 (conj HP (conj Hkeep (conj Hm
           (prompt_exact (lit "Ann") (lit "Bob") (lit "SF")
              (lit "  An old shop." ++ [NL] ++ lit "It rains. ")
              (lit "English") 400 Hl Hg H1 H2 HP Hkeep)))))))).
Defined.
